(** * jira-changelog: message chunking, chunk dispatch and range resolution

    A shallow embedding of the two source files of the repository:
    - [Slack] (the class [Slack]: [isEnabled], [postChunk], [postMessage],
      [splitUpMessage]);
    - [Cli] (src/cli.js: [commandLineArgs], [parseRange], [getRangeObject],
      [runProgram]).

    JavaScript strings are sequences of code units; they are modelled by
    [string], whose characters are the 8-bit code units.  JavaScript
    objects used as records of named properties are modelled by
    [gmap string _]; promises by a state-and-error monad over the
    observable world. *)

From Stdlib Require Import Ascii String List Arith Lia.
From stdpp Require Import base strings gmap list.

(** ** JavaScript string primitives used by the sources *)

Module JS.

(** [s.length] *)
Abbreviation len := String.length.

(** [s.substr(start, count)] for non-negative integer arguments. *)
Definition substr (s : string) (start count : nat) : string :=
  String.substring start count s.

(** [s.substr(start)]: from [start] to the end of the string. *)
Definition substrFrom (s : string) (start : nat) : string :=
  String.substring start (len s - start) s.

(** White space as [String.prototype.trim] sees it, among the 8-bit code
    units: TAB, LF, VT, FF, CR, SPACE and NBSP. *)
Definition isWhiteSpace (c : ascii) : bool :=
  match c with
  | "009" | "010" | "011" | "012" | "013" | " " | "160" => true
  | _ => false
  end%char.

Fixpoint trimStart (s : string) : string :=
  match s with
  | EmptyString => EmptyString
  | String c r => if isWhiteSpace c then trimStart r else s
  end.

Fixpoint trimEnd (s : string) : string :=
  match s with
  | EmptyString => EmptyString
  | String c r =>
      match trimEnd r with
      | EmptyString => if isWhiteSpace c then EmptyString else String c EmptyString
      | r' => String c r'
      end
  end.

(** [s.trim()] *)
Definition trim (s : string) : string := trimEnd (trimStart s).

(** The first field of [s] up to the separator character, and the
    remaining fields. *)
Fixpoint splitFields (sep : ascii) (s : string) : string * list string :=
  match s with
  | EmptyString => (EmptyString, [])
  | String c r =>
      let '(h, t) := splitFields sep r in
      if decide (c = sep) then (EmptyString, h :: t) else (String c h, t)
  end.

(** [s.split(sep)] for a one-character separator string. *)
Definition split (sep : ascii) (s : string) : list string :=
  let '(h, t) := splitFields sep s in h :: t.

(** [s.repeat(n)] for a one-character string. *)
Fixpoint repeat (c : ascii) (n : nat) : string :=
  match n with
  | 0 => EmptyString
  | S n' => String c (repeat c n')
  end.

(** Truthiness of a string value: the empty string is falsy. *)
Definition truthy (s : string) : bool :=
  match s with EmptyString => false | _ => true end.

(** [l.join("")] *)
Definition concat (l : list string) : string :=
  foldr String.append EmptyString l.

Definition LF : ascii := "010"%char.

End JS.

(** ** Values, completions and promises *)

Module Async.

(** The response object a [fetch] resolves with, as far as the sources
    read it: [response.ok] and [response.error]. *)
Record Response := { ok : bool; error : option string }.

(** The JavaScript values that the sources pass around, throw or log. *)
Inductive Value :=
| VUndefined
| VNull
| VTrue
| VStr (s : string)
| VArr (l : list string)
| VEmptyObject
| VResponse (r : Response)
  (** an [Error] object *)
| VError (message : string).

(** How a synchronous call completes. *)
Inductive Completion (A : Type) :=
| Normal (a : A)
| Throw (e : Value).
Arguments Normal {A} a.
Arguments Throw {A} e.

(** How a promise settles. *)
Inductive Settled (A : Type) :=
| Fulfilled (a : A)
| Rejected (reason : Value).
Arguments Fulfilled {A} a.
Arguments Rejected {A} reason.

(** A promise over a world [W]: run from a state of the world, it settles
    and leaves a new state.  [andThen p f] is [p.then(f)] (and
    [const x = await p; f(x)] in an async function): [f] is called only
    once [p] is fulfilled, and a rejection of [p] is passed on without
    calling it. *)
Definition Promise (W A : Type) : Type := W -> Settled A * W.

Definition resolve {W A} (a : A) : Promise W A := fun w => (Fulfilled a, w).
Definition reject {W A} (reason : Value) : Promise W A := fun w => (Rejected reason, w).

Definition andThen {W A B} (p : Promise W A) (f : A -> Promise W B) : Promise W B :=
  fun w =>
    match p w with
    | (Fulfilled a, w') => f a w'
    | (Rejected reason, w') => (Rejected reason, w')
    end.

(** [try { await p } catch (e) { await h(e) }] *)
Definition catch {W A} (p : Promise W A) (h : Value -> Promise W A) : Promise W A :=
  fun w =>
    match p w with
    | (Fulfilled a, w') => (Fulfilled a, w')
    | (Rejected reason, w') => h reason w'
    end.

(** A synchronous call inside a [then] callback or an async function:
    what it throws rejects the promise. *)
Definition ofCompletion {W A} (c : Completion A) : Promise W A :=
  match c with
  | Normal a => resolve a
  | Throw e => reject e
  end.

Definition ofSettled {W A} (s : Settled A) : Promise W A := fun w => (s, w).

End Async.

Export Async.

Declare Scope promise_scope.
Delimit Scope promise_scope with promise.
Notation "x <- p ;; q" := (andThen p (fun x => q))
(at level 100, p at next level, right associativity) : promise_scope.
Notation "p ;;; q" := (andThen p (fun _ => q))
(at level 100, right associativity) : promise_scope.

(** ** The observable world: the console, the collaborators and the webhook *)

Module Env.

(** The body [postChunk] posts: [{username, text, blocks: [{type, text:
    {type, text}}]}].  [JSON.stringify] of it is not modelled: the request
    carries the object. *)
Record TextObject := { text_type : string; text_text : string }.
Record Block := { block_type : string; block_text : TextObject }.
Record MessageBody := { username : string; text : string; blocks : list Block }.

(** What the sources do that can be observed from outside, in the order
    in which it happens. *)
Inductive Event :=
| ConsoleLog (args : list Value)
| ConsoleError (args : list Value)
| ReadConfigFile (gitPath : string)
| GenerateReleaseVersionName
| GetCommitLogs (gitPath : string) (range : gmap string Value)
| JiraGenerate (release : Value)
| GenerateTemplateData
| RenderTemplate
| TransformForSlack (message : string)
| Post (url : string) (body : MessageBody) (result : Settled (option Response)).

(** The state of the network behind the webhook and the events so far. *)
Record World (Net : Type) := { net : Net; trace : list Event }.
Arguments net {Net} w.
Arguments trace {Net} w.

Definition emit {Net} (e : Event) : Promise (World Net) unit :=
  fun w => (Fulfilled tt, {| net := net w; trace := trace w ++ [e] |}).

End Env.

Export Env.

(** ** The configuration object, as far as the sources read it *)

Module Config.

Record SlackConfig := { webhookURL : option string; channel : option string }.

Record SourceControlConfig := { defaultRange : option (gmap string Value) }.

(** [generateReleaseVersionName] is [Some] when the property is a
    function; it then holds what the promise it returns settles to. *)
Record JiraConfig := { generateReleaseVersionName : option (Settled Value) }.

Record t := {
  slack : option SlackConfig;
  sourceControl : option SourceControlConfig;
  jira : option JiraConfig
}.

End Config.

(** ** The Slack integration (class [Slack]) *)

Module Slack.

Definition MSG_SIZE_LIMIT : nat := 4000.

(** *** [splitUpMessage] *)

Definition continuation : string := "...".
Definition limit : nat := MSG_SIZE_LIMIT - JS.len continuation.

(** The loop [while (line.length > 0) { ... messages.push(last); }].
    [fuel] bounds the number of iterations; [None] means that the bound
    was reached before the loop ended. *)
Fixpoint hardSplitLoop (fuel : nat) (line : string) (messages : list string)
  : option (list string) :=
  if 0 <? JS.len line then
    match fuel with
    | 0 => None
    | S fuel' =>
        let last := JS.trim (JS.substr line 0 limit) in
        let line := JS.trim (JS.substrFrom line limit) in
        if 0 <? JS.len line
        then hardSplitLoop fuel' (continuation +:+ line)
               (messages ++ [last +:+ continuation])
        else hardSplitLoop fuel' line (messages ++ [last])
    end
  else Some messages.

(** The loop run on a line: every iteration shortens the line, so its
    length bounds the number of iterations ([hardSplitLoop_fuel] below). *)
Definition hardSplit (line : string) (messages : list string) : list string :=
  default messages (hardSplitLoop (JS.len line) line messages).

(** The body of [lines.forEach], on the two variables it updates: the
    array [messages] and the string [block]. *)
Definition forEachLine (st : list string * string) (line : string)
  : list string * string :=
  let '(messages, block) := st in
  let tmpBlock := block +:+ line +:+ String JS.LF EmptyString in
  if JS.len tmpBlock <=? MSG_SIZE_LIMIT then (messages, tmpBlock)
  else if 0 <? JS.len block then (messages ++ [block], line)
  else (hardSplit line messages, block).

Definition splitUpMessage (text : string) : list string :=
  if JS.len text <=? MSG_SIZE_LIMIT then [text]
  else
    let lines := JS.split JS.LF text in
    let '(messages, block) := foldl forEachLine ([], EmptyString) lines in
    if JS.truthy block then messages ++ [block] else messages.

(** *** [isEnabled], [postChunk], [postMessage] *)

Section Dispatch.

(** The network behind [fetch]: from its state, a POST of a body to a URL
    settles (with a response, or with a failure of the transport) and
    leaves a new state. *)
Context {Net : Type}.
Variable transport : Net -> string -> MessageBody -> Settled (option Response) * Net.
Variable config : Config.t.

Abbreviation W := (World Net).

(** [this.config.slack && this.config.slack.webhookURL], as a truth value. *)
Definition isEnabled : bool :=
  match Config.slack config with
  | Some s =>
      match Config.webhookURL s with
      | Some url => JS.truthy url
      | None => false
      end
  | None => false
  end.

(** [fetch(url, {method: 'POST', body, headers})]: the attempt and how it
    settled are recorded in the trace. *)
Definition fetch (url : string) (body : MessageBody) : Promise W (option Response) :=
  fun w =>
    let '(result, net') := transport (net w) url body in
    (result, {| net := net'; trace := trace w ++ [Post url body result] |}).

Definition messageBody (body : string) : MessageBody :=
  {| username := "Changelog notifier";
     text := "Changelog published";
     blocks := [ {| block_type := "section";
                    block_text := {| text_type := "mrkdwn"; text_text := body |} |} ] |}.

(** The template literal [`${this.config.slack.webhookURL}`], once
    [config.slack] is known to be there: an undefined URL reads "undefined". *)
Definition webhook : string :=
  match Config.slack config with
  | Some s => default "undefined" (Config.webhookURL s)
  | None => "undefined"
  end.

(** [postChunk] is only called from a [then] callback: reading
    [webhookURL] of an absent [config.slack] throws there, which rejects
    the chain. *)
Definition postChunk (body : string) : Promise W (option Response) :=
  match Config.slack config with
  | None => reject (VError "Cannot read property 'webhookURL' of undefined")
  | Some _ =>
      let url := webhook in
      if negb isEnabled then reject (VStr "The slack API is not configured.")
      else (data <- fetch url (messageBody body) ;; resolve data)%promise
  end.

(** The inner function [sendChunk] of [postMessage]. *)
Definition sendChunk (text : string) : Promise W Value :=
  (response <- postChunk text ;;
   match response with
   | Some r =>
       if negb (ok r)
       then reject (match error r with Some e => VStr e | None => VUndefined end)
       else resolve (VResponse r)
   | None => resolve VNull
   end)%promise.

(** The callback of [chunks.reduce]. *)
Definition chain (promise : Promise W Value) (text : string) : Promise W Value :=
  (promise ;;; sendChunk text)%promise.

(** [text] is [None] when the argument is absent. *)
Definition postMessage (text : option string) : Promise W Value :=
  match text with
  | None => reject (VStr "No text to send to slack.")
  | Some text =>
      if negb (JS.truthy text) || (JS.len text =? 0)
      then reject (VStr "No text to send to slack.")
      else if negb isEnabled then resolve VEmptyObject
      else
        let chunks := splitUpMessage text in
        foldl chain (resolve VUndefined) chunks
  end.

End Dispatch.

End Slack.

(** ** The command line program (src/cli.js) *)

Module Cli.

(** *** Property reads on values *)

(** [v && v.length], as a truth value. *)
Definition hasLength (v : Value) : bool :=
  match v with
  | VArr l => 0 <? length l
  | VStr s => 0 <? JS.len s
  | _ => false
  end.

(** [v.length] where it is a number. *)
Definition lengthOf (v : Value) : nat :=
  match v with
  | VArr l => length l
  | VStr s => JS.len s
  | _ => 0
  end.

(** [v[i]] *)
Definition index (v : Value) (i : nat) : Value :=
  match v with
  | VArr l => from_option VStr VUndefined (l !! i)
  | VStr s =>
      from_option (fun c => VStr (String c EmptyString)) VUndefined (String.get i s)
  | _ => VUndefined
  end.

Definition truthy (v : Value) : bool :=
  match v with
  | VUndefined | VNull => false
  | VStr s => JS.truthy s
  | _ => true
  end.

(** *** [parseRange] *)

(** [rangeStr.split(/\.{3,3}/)]: the text before the leftmost run of
    exactly three dots, and the fields of what follows it. *)
Fixpoint splitDots (s : string) : string * list string :=
  match s with
  | EmptyString => (EmptyString, [])
  | String c1 r1 =>
      match r1 with
      | String c2 (String c3 r3) =>
          if decide (c1 = "."%char ∧ c2 = "."%char ∧ c3 = "."%char)
          then let '(h, t) := splitDots r3 in (EmptyString, h :: t)
          else let '(h, t) := splitDots r1 in (String c1 h, t)
      | _ => let '(h, t) := splitDots r1 in (String c1 h, t)
      end
  end.

Definition parseRange (rangeStr : string) : list string :=
  let '(h, t) := splitDots rangeStr in h :: t.

(** *** [commandLineArgs] *)

(** What the user typed: the value of each option that was given, and the
    positional arguments. [release] is [Some None] for a bare [--release]. *)
Record CommandLine := {
  opt_config : option string;
  opt_range : option string;
  opt_date : option string;
  opt_slack : bool;
  opt_release : option (option string);
  positional : list string
}.

(** The [program] object after [parse]: [program.args] and the properties
    that hold the options' values. *)
Record Program := { args : list string; props : gmap string Value }.

(** [program.<name>] *)
Definition prop (program : Program) (name : string) : Value :=
  default VUndefined (props program !! name).

Definition setProp (program : Program) (name : string) (v : Value) : Program :=
  {| args := args program; props := <[name := v]> (props program) |}.

(** The name of the property in which commander keeps the value of an
    option: the long flag of its [flags], without the dashes. (Commander
    also turns a dash inside the name into camel case; no flag here has
    one.) *)
Fixpoint afterDashes (flags : string) : string :=
  match flags with
  | EmptyString => EmptyString
  | String c1 r1 =>
      match r1 with
      | String c2 r2 =>
          if decide (c1 = "-"%char ∧ c2 = "-"%char) then r2 else afterDashes r1
      | EmptyString => EmptyString
      end
  end.

Fixpoint upToDelimiter (s : string) : string :=
  match s with
  | EmptyString => EmptyString
  | String c r =>
      if decide (c = " "%char ∨ c = ","%char ∨ c = "|"%char)
      then EmptyString
      else String c (upToDelimiter r)
  end.

Definition attributeName (flags : string) : string :=
  upToDelimiter (afterDashes flags).

(** [program.option(flags, description, fn)] followed by [parse]: commander
    stores the value of a given option in the property of [program] named
    after the long flag, after passing it through [fn] when there is one;
    a flag without argument, or with its optional argument left out, stores
    [true]; an option that was not given leaves its property undefined.
    [given] is [None] for an option that was not given and [Some None] for
    one given without argument. Unknown options, [--help] and [--version],
    on which commander ends the process, are left out. *)
Definition programOption (flags : string) (fn : option (string -> list string))
    (given : option (option string)) (program : Program) : Program :=
  match given with
  | None => program
  | Some None => setProp program (attributeName flags) VTrue
  | Some (Some arg) =>
      setProp program (attributeName flags)
        match fn with
        | Some f => VArr (f arg)
        | None => VStr arg
        end
  end.

Definition commandLineArgs (cl : CommandLine) : Program :=
  let program := {| args := positional cl; props := ∅ |} in
  let program :=
    programOption "-c, --config <filepath>" None (Some <$> opt_config cl) program in
  let program :=
    programOption "-r, --range <from>...<to>" (Some parseRange)
      (Some <$> opt_range cl) program in
  let program :=
    programOption "-d, --date <date>[...date]" (Some parseRange)
      (Some <$> opt_date cl) program in
  let program :=
    programOption "-s, --slack" None (if opt_slack cl then Some None else None) program in
  programOption "--release [release]" None (opt_release cl) program.

(** *** [getRangeObject] *)

(** The range object: its own properties and their values. *)
Abbreviation Range := (gmap string Value).

(** [(config.sourceControl && config.sourceControl.defaultRange) ?
    config.sourceControl.defaultRange : {}] *)
Definition defaultRangeOf (config : Config.t) : Range :=
  match Config.sourceControl config with
  | Some sc => default ∅ (Config.defaultRange sc)
  | None => ∅
  end.

(** The object built by [getRangeObject] before its final test.
    [Object.assign(range, defaultRange)] lets the properties of
    [defaultRange] override those of [range]. *)
Definition rangeOf (config : Config.t) (program : Program) : Range :=
  let range : Range := ∅ in
  let defaultRange := defaultRangeOf config in
  let range :=
    if hasLength (prop program "range")
    then <["to" := index (prop program "range") 1]>
           (<["from" := index (prop program "range") 0]> range)
    else range in
  let range :=
    if hasLength (prop program "dateRange")
    then
      let range := <["after" := index (prop program "dateRange") 0]> range in
      if 1 <? lengthOf (prop program "dateRange")
      then <["before" := index (prop program "dateRange") 1]> range
      else range
    else range in
  if (size range =? 0) && negb (size defaultRange =? 0)
  then defaultRange ∪ range
  else range.

(** [new Error('No range defined for the changelog.')] *)
Definition noRange : Value := VError "No range defined for the changelog.".

Definition getRangeObject (config : Config.t) (program : Program) : Completion Range :=
  let range := rangeOf config program in
  if size range =? 0 then Throw noRange else Normal range.

(** *** [postToSlack] and [runProgram] *)

(** [e.stack] and [e.message] in the [catch] of [runProgram]; reading a
    property of [undefined] or [null] throws.  Of the stack only its first
    line is kept. *)
Definition stackOf (e : Value) : Completion Value :=
  match e with
  | VUndefined | VNull => Throw (VError "Cannot read property 'stack' of undefined")
  | VError m => Normal (VStr ("Error: " +:+ m))
  | _ => Normal VUndefined
  end.

Definition messageOf (e : Value) : Value :=
  match e with
  | VError m => VStr m
  | _ => VUndefined
  end.

Definition guidance : string :=
  "You need to define the jira.generateReleaseVersionName function in your config, if you're not going to pass the release version name in the command.".

Section Orchestrator.

Context {Net : Type}.
Variable transport : Net -> string -> MessageBody -> Settled (option Response) * Net.

(** The collaborators, which are not part of the sources: the process and
    [path], the configuration loader, the source control and issue tracker
    clients, the template renderer and the entity decoder.  A call to one
    of them is recorded in the trace before its result is used. *)
Variables CommitLogs Changelog ReleaseVersions TmplData : Type.
Variable cwd : string.
Variable pathResolve : string -> string.
Variable readConfigFile : string -> Completion Config.t.
Variable newJira : Config.t -> Completion unit.
Variable newSourceControl : Config.t -> Completion unit.
Variable getCommitLogs : Config.t -> string -> Range -> Settled CommitLogs.
(** [jira.generate(commitLogs, release)], with [jira.releaseVersions] as
    it is once the call has resolved. *)
Variable jiraGenerate : Config.t -> CommitLogs -> Value -> Settled (Changelog * ReleaseVersions).
Variable generateTemplateData : Config.t -> Changelog -> ReleaseVersions -> Settled TmplData.
Variable renderTemplate : Config.t -> TmplData -> Completion string.
Variable decode : string -> string.
(** [config.transformForSlack], when it is a function. *)
Variable transformForSlack : Config.t -> option (string -> TmplData -> Settled string).

Abbreviation W := (World Net).

(** [config.slack.channel] where [postToSlack] reads it, that is once
    [config.slack] is known to be there; the empty string stands for an
    absent channel, which is as falsy. *)
Definition channelOf (config : Config.t) : string :=
  match Config.slack config with
  | Some s => default EmptyString (Config.channel s)
  | None => EmptyString
  end.

Definition postToSlack (config : Config.t) (data : TmplData) (changelogMessage : string)
  : Promise W unit :=
  if negb (Slack.isEnabled config) || negb (JS.truthy (channelOf config))
  then emit (ConsoleError [VStr "Error: Slack is not configured."])
  else
    (emit (ConsoleLog [VStr (String JS.LF "Posting changelog message to slack channel: "
                               +:+ channelOf config +:+ "...")]) ;;;
     catch
       (changelogMessage <-
          match transformForSlack config with
          | Some f => (emit (TransformForSlack changelogMessage) ;;;
                       ofSettled (f changelogMessage data))
          | None => resolve changelogMessage
          end ;;
        Slack.postMessage transport config (Some changelogMessage) ;;;
        emit (ConsoleLog [VStr "Done"]))
       (fun e => emit (ConsoleLog [VStr "Error: "; e])))%promise.

(** The steps of [runProgram] after the release name is settled. *)
Definition generateChangelog (config : Config.t) (gitPath : string) (program : Program)
  : Promise W unit :=
  (range <- ofCompletion (getRangeObject config program) ;;
   emit (GetCommitLogs gitPath range) ;;;
   commitLogs <- ofSettled (getCommitLogs config gitPath range) ;;
   emit (JiraGenerate (prop program "release")) ;;;
   generated <- ofSettled (jiraGenerate config commitLogs (prop program "release")) ;;
   emit GenerateTemplateData ;;;
   tmplData <- ofSettled (generateTemplateData config generated.1 generated.2) ;;
   emit RenderTemplate ;;;
   changelogMessage <- ofCompletion (renderTemplate config tmplData) ;;
   emit (ConsoleLog [VStr (decode changelogMessage)]) ;;;
   if truthy (prop program "slack")
   then postToSlack config tmplData changelogMessage
   else resolve tt)%promise.

(** The release step: [None] when the function returns from inside it,
    otherwise the program object with which the run goes on. *)
Definition releaseVersionName (config : Config.t) (program : Program)
  : Promise W (option Program) :=
  match prop program "release" with
  | VTrue =>
      match Config.jira config with
      | None => reject (VError "Cannot read property 'generateReleaseVersionName' of undefined")
      | Some j =>
          match Config.generateReleaseVersionName j with
          | None => (emit (ConsoleLog [VStr guidance]) ;;; resolve None)%promise
          | Some settles =>
              (emit GenerateReleaseVersionName ;;;
               name <- ofSettled settles ;;
               resolve (Some (setProp program "release" name)))%promise
          end
      end
  | _ => resolve (Some program)
  end.

(** The git workspace path: [process.cwd()], or the first positional
    argument when there is one, made absolute. *)
Definition gitPathOf (program : Program) : string :=
  let gitPath := cwd in
  let gitPath := match args program with a :: _ => a | [] => gitPath end in
  pathResolve gitPath.

(** The [try] block of [runProgram]. *)
Definition tryBlock (cl : CommandLine) : Promise W unit :=
  let program := commandLineArgs cl in
  let gitPath := gitPathOf program in
  (emit (ReadConfigFile gitPath) ;;;
   config <- ofCompletion (readConfigFile gitPath) ;;
   ofCompletion (newJira config) ;;;
   ofCompletion (newSourceControl config) ;;;
   next <- releaseVersionName config program ;;
   match next with
   | None => resolve tt
   | Some program => generateChangelog config gitPath program
   end)%promise.

(** The [catch] block of [runProgram]. *)
Definition catchBlock (e : Value) : Promise W unit :=
  (stack <- ofCompletion (stackOf e) ;;
   emit (ConsoleError [VStr "Error: "; stack]) ;;;
   emit (ConsoleLog [messageOf e]))%promise.

Definition runProgram (cl : CommandLine) : Promise W unit :=
  catch (tryBlock cl) catchBlock.

End Orchestrator.

End Cli.

(** ** Notions in which the properties are stated *)

Module Notions.

(** A chunk fits the limit of a Slack message. *)
Definition fits (chunk : string) : Prop := JS.len chunk ≤ Slack.MSG_SIZE_LIMIT.

(** The text without its newline characters. *)
Fixpoint withoutLF (s : string) : string :=
  match s with
  | EmptyString => EmptyString
  | String c r => if decide (c = JS.LF) then withoutLF r else String c (withoutLF r)
  end.

(** The response was accepted by Slack, as [sendChunk] reads it. *)
Definition accepted (result : Settled (option Response)) : bool :=
  match result with
  | Fulfilled (Some r) => ok r
  | Fulfilled None => true
  | Rejected _ => false
  end.

(** The event of posting a chunk, with how the POST settled. *)
Definition posted (config : Config.t) (attempt : string * Settled (option Response))
  : Event :=
  Post (Slack.webhook config) (Slack.messageBody attempt.1) attempt.2.

(** The separator that [parseRange] looks for. *)
Definition separator : string := "...".

(** The text holds three dots in a row somewhere. *)
Fixpoint hasSeparator (s : string) : bool :=
  String.prefix separator s
  || match s with
     | EmptyString => false
     | String _ r => hasSeparator r
     end.

(** The last character of the text is a dot. *)
Fixpoint endsWithDot (s : string) : bool :=
  match s with
  | EmptyString => false
  | String c EmptyString => bool_decide (c = "."%char)
  | String _ r => endsWithDot r
  end.

(** The value commander keeps for an option that was given, and the
    property set for it under a name. *)
Definition optionValue (fn : option (string -> list string)) (given : option string)
  : Value :=
  match given, fn with
  | None, _ => VTrue
  | Some arg, Some f => VArr (f arg)
  | Some arg, None => VStr arg
  end.

Definition setGiven (name : string) (fn : option (string -> list string))
    (given : option (option string)) (properties : gmap string Value)
  : gmap string Value :=
  match given with
  | None => properties
  | Some g => <[name := optionValue fn g]> properties
  end.

(** The events that are steps of the pipeline after the release step: the
    calls to the collaborators and the POSTs to the webhook. *)
Definition isPipelineStep (e : Event) : bool :=
  match e with
  | GetCommitLogs _ _ | JiraGenerate _ | GenerateTemplateData | RenderTemplate
  | TransformForSlack _ | Post _ _ _ => true
  | ConsoleLog _ | ConsoleError _ | ReadConfigFile _ | GenerateReleaseVersionName => false
  end.

(** The configuration defines no [generateReleaseVersionName] function. *)
Definition noGenerator (config : Config.t) : Prop :=
  match Config.jira config with
  | Some j => Config.generateReleaseVersionName j = None
  | None => True
  end.

(** A slice of a torn line followed by the continuation marker, and the
    chunk that starts with the marker. *)
Definition withMarker (slice : string) : string := slice +:+ Slack.continuation.

Definition startsWithMarker (chunk : string) : bool :=
  String.prefix Slack.continuation chunk.

(** The events on the console, and those of the delivery to Slack. *)
Definition isConsole (e : Event) : bool :=
  match e with
  | ConsoleLog _ | ConsoleError _ => true
  | _ => false
  end.

Definition isDelivery (e : Event) : bool :=
  match e with
  | TransformForSlack _ | Post _ _ _ => true
  | _ => false
  end.

(** The steps of the pipeline, numbered in the order of [runProgram], and
    the numbers of the steps among some events. *)
Definition stepNumber (e : Event) : option nat :=
  match e with
  | GetCommitLogs _ _ => Some 0
  | JiraGenerate _ => Some 1
  | GenerateTemplateData => Some 2
  | RenderTemplate => Some 3
  | _ => None
  end.

Definition steps (events : list Event) : list nat := omap stepNumber events.

(** What an event of the steps that follow the release step can be: for
    the git path of the run, the release name and the Slack flag it goes on
    with. *)
Definition stepEvent (gitPath : string) (release : Value) (slack : bool) (e : Event)
  : Prop :=
  match e with
  | ConsoleLog _ | ConsoleError _ | GenerateTemplateData | RenderTemplate => True
  | GetCommitLogs p range => p = gitPath ∧ range ≠ ∅
  | JiraGenerate r => r = release
  | TransformForSlack _ | Post _ _ _ => slack = true
  | ReadConfigFile _ | GenerateReleaseVersionName => False
  end.

(** What an event of a run can be, for its git path and command line. *)
Definition runEvent (gitPath : string) (cl : Cli.CommandLine) (e : Event) : Prop :=
  match e with
  | ConsoleLog _ | ConsoleError _ | GenerateTemplateData | RenderTemplate => True
  | ReadConfigFile p => p = gitPath
  | GenerateReleaseVersionName => Cli.opt_release cl = Some None
  | GetCommitLogs p range => p = gitPath ∧ range ≠ ∅
  | JiraGenerate r =>
      match Cli.opt_release cl with
      | None => r = VUndefined
      | Some (Some name) => r = VStr name
      | Some None => True
      end
  | TransformForSlack _ | Post _ _ _ => Cli.opt_slack cl = true
  end.

(** The program object with which the run goes on after the release step
    agrees with the command line. *)
Definition agrees (cl : Cli.CommandLine) (program : Cli.Program) : Prop :=
  Cli.truthy (Cli.prop program "slack") = Cli.opt_slack cl
  ∧ match Cli.opt_release cl with
    | None => Cli.prop program "release" = VUndefined
    | Some (Some name) => Cli.prop program "release" = VStr name
    | Some None => True
    end.

(** A POST, if the event is one, was accepted. *)
Definition postAccepted (e : Event) : Prop :=
  match e with
  | Post _ _ result => accepted result = true
  | _ => True
  end.

(** The three lines with which [postToSlack] can end. *)
Definition notConfigured : Event :=
  ConsoleError [VStr "Error: Slack is not configured."].

Definition done : Event := ConsoleLog [VStr "Done"].

Definition deliveryError (e : Value) : Event := ConsoleLog [VStr "Error: "; e].

(** [postToSlack] is configured, and goes on to the delivery: the webhook
    URL and the channel are both there. *)
Definition configured (config : Config.t) : bool :=
  Slack.isEnabled config && JS.truthy (Cli.channelOf config).

(** The line with which [postToSlack] starts a delivery. *)
Definition posting (config : Config.t) : Event :=
  ConsoleLog [VStr (String JS.LF "Posting changelog message to slack channel: "
                      +:+ Cli.channelOf config +:+ "...")].

End Notions.

(** ** Inputs on which the sources are run below *)

Module Fixtures.

(** Two lines, the second one character longer than the limit. *)
Definition shortThenLongLine : string :=
  "a" +:+ String JS.LF (JS.repeat "b" 4001).

(** Three lines, none longer than the limit, 4004 characters in all. *)
Definition threeLines : string :=
  JS.repeat "a" 2001 +:+ String JS.LF (JS.repeat "b" 2000 +:+ String JS.LF "c").

(** Three lines that make three chunks. *)
Definition threeChunks : string :=
  JS.repeat "a" 2001 +:+ String JS.LF
    (JS.repeat "b" 2000 +:+ String JS.LF (JS.repeat "c" 2000)).

(** A configuration with a webhook, and one without the Slack block. *)
Definition slackConfigured : Config.t :=
  {| Config.slack := Some {| Config.webhookURL := Some "https://hooks.slack.test/services/T0";
                             Config.channel := Some "releases" |};
     Config.sourceControl := None;
     Config.jira := None |}.

Definition slackAbsent : Config.t :=
  {| Config.slack := None; Config.sourceControl := None; Config.jira := None |}.

(** A webhook that counts the requests it has received and fails the
    second one: the connection is dropped. *)
Definition secondFails (n : nat) (url : string) (body : MessageBody)
  : Settled (option Response) * nat :=
  if n =? 1
  then (Rejected (VError "socket hang up"), S n)
  else (Fulfilled (Some {| ok := true; error := None |}), S n).

Definition freshWorld : World nat := {| net := 0; trace := [] |}.

(** A configuration with the Slack block but no webhook URL, and a webhook
    that accepts every request. *)
Definition slackWithoutURL : Config.t :=
  {| Config.slack := Some {| Config.webhookURL := None;
                             Config.channel := Some "releases" |};
     Config.sourceControl := None;
     Config.jira := None |}.

Definition alwaysOk (n : nat) (url : string) (body : MessageBody)
  : Settled (option Response) * nat :=
  (Fulfilled (Some {| ok := true; error := None |}), S n).

(** A webhook that answers every request with an error payload. *)
Definition alwaysRefused (n : nat) (url : string) (body : MessageBody)
  : Settled (option Response) * nat :=
  (Fulfilled (Some {| ok := false; error := Some "invalid_payload" |}), S n).

(** A configuration with a default range. *)
Definition defaultFromTo : Config.t :=
  {| Config.slack := None;
     Config.sourceControl :=
       Some {| Config.defaultRange :=
                 Some {[ "from" := VStr "origin/prod"; "to" := VStr "origin/master" ]} |};
     Config.jira := None |}.

(** Command lines: nothing but one option. *)
Definition noOptions : Cli.CommandLine :=
  {| Cli.opt_config := None; Cli.opt_range := None; Cli.opt_date := None;
     Cli.opt_slack := false; Cli.opt_release := None; Cli.positional := [] |}.

Definition withRange (rangeStr : string) : Cli.CommandLine :=
  {| Cli.opt_config := None; Cli.opt_range := Some rangeStr; Cli.opt_date := None;
     Cli.opt_slack := false; Cli.opt_release := None; Cli.positional := [] |}.

Definition withDate (dateStr : string) : Cli.CommandLine :=
  {| Cli.opt_config := None; Cli.opt_range := None; Cli.opt_date := Some dateStr;
     Cli.opt_slack := false; Cli.opt_release := None; Cli.positional := [] |}.

(** A configuration whose [jira] block defines no
    [generateReleaseVersionName]. *)
Definition jiraWithoutGenerator : Config.t :=
  {| Config.slack := None;
     Config.sourceControl := None;
     Config.jira := Some {| Config.generateReleaseVersionName := None |} |}.

(** Collaborators that answer at once: a loader that returns a given
    configuration, constructors that succeed, a repository without commits,
    an issue tracker and a renderer that return empty texts. *)
Definition loads (config : Config.t) (gitPath : string) : Completion Config.t :=
  Normal config.

Definition constructed (config : Config.t) : Completion unit := Normal tt.

Definition noCommits (config : Config.t) (gitPath : string) (range : gmap string Value)
  : Settled (list string) := Fulfilled [].

Definition emptyChangelog (config : Config.t) (commitLogs : list string) (release : Value)
  : Settled (string * list string) := Fulfilled (EmptyString, []).

Definition emptyData (config : Config.t) (changelog : string) (versions : list string)
  : Settled string := Fulfilled EmptyString.

Definition rendersData (config : Config.t) (data : string) : Completion string :=
  Normal data.

Definition noTransform (config : Config.t) : option (string -> string -> Settled string) :=
  None.

(** A program object on which [dateRange] holds two tokens, beside the
    range given on the command line. *)
Definition withDateRange : Cli.Program :=
  Cli.setProp (Cli.commandLineArgs (withRange "v1.0.0...v1.1.0")) "dateRange"
    (VArr ["2020-01-01"; "2020-02-01"]).


Definition titleTransform (config : Config.t)
  : option (string -> string -> Settled string) :=
  Some (fun message data => Fulfilled ("Release notes: " +:+ message)).

(** Configurations with a default range and a release name generator: one
    that answers, one that fails. *)
Definition jiraWithGenerator : Config.t :=
  {| Config.slack := None;
     Config.sourceControl :=
       Some {| Config.defaultRange :=
                 Some {[ "from" := VStr "origin/prod"; "to" := VStr "origin/master" ]} |};
     Config.jira :=
       Some {| Config.generateReleaseVersionName := Some (Fulfilled (VStr "v2.0.0")) |} |}.





(** [--release] without a name. *)
Definition bareRelease : Cli.CommandLine :=
  {| Cli.opt_config := None; Cli.opt_range := None; Cli.opt_date := None;
     Cli.opt_slack := false; Cli.opt_release := Some None; Cli.positional := [] |}.

End Fixtures.

(** * Properties of the Slack integration *)

Module SlackFacts.

Import Slack.
Import Notions.

(** ** Lengths of the string primitives *)

Lemma len_append (s1 s2 : string) : JS.len (s1 +:+ s2) = JS.len s1 + JS.len s2.
Proof. induction s1 as [|c s1 IH]; simpl; [reflexivity | now rewrite IH]. Qed.

Lemma len_substr_le (s : string) (count : nat) : JS.len (JS.substr s 0 count) ≤ count.
Proof.
  unfold JS.substr. revert s.
  induction count as [|n IH]; intros [|c s]; simpl; try lia.
  specialize (IH s). lia.
Qed.

Lemma len_substring_from (s : string) (start count : nat) :
  JS.len (String.substring start count s) ≤ JS.len s - start.
Proof.
  revert start count.
  induction s as [|c s IH]; intros [|start] [|count]; simpl; try lia.
  - specialize (IH 0 count). lia.
  - apply IH.
  - apply IH.
Qed.

Lemma len_substrFrom_le (s : string) (start : nat) :
  JS.len (JS.substrFrom s start) ≤ JS.len s - start.
Proof. apply len_substring_from. Qed.

Lemma len_trimStart_le (s : string) : JS.len (JS.trimStart s) ≤ JS.len s.
Proof.
  induction s as [|c s IH]; simpl; [lia|].
  destruct (JS.isWhiteSpace c); simpl; lia.
Qed.

Lemma len_trimEnd_le (s : string) : JS.len (JS.trimEnd s) ≤ JS.len s.
Proof.
  induction s as [|c s IH]; simpl; [lia|].
  destruct (JS.trimEnd s) as [|c' r'].
  - destruct (JS.isWhiteSpace c); simpl; lia.
  - simpl in *. lia.
Qed.

Lemma len_trim_le (s : string) : JS.len (JS.trim s) ≤ JS.len s.
Proof.
  unfold JS.trim.
  pose proof (len_trimEnd_le (JS.trimStart s)).
  pose proof (len_trimStart_le s). lia.
Qed.

Lemma len_repeat (c : ascii) (n : nat) : JS.len (JS.repeat c n) = n.
Proof. induction n as [|n IH]; simpl; congruence. Qed.

(** ** The constants *)

Lemma limit_continuation : limit + JS.len continuation = MSG_SIZE_LIMIT.
Proof. reflexivity. Qed.

Lemma continuation_lt_limit : JS.len continuation < limit.
Proof. apply Nat.ltb_lt. vm_compute. reflexivity. Qed.

(** ** The hard split of one line *)

(** The loop ends within as many iterations as the line has characters,
    and what it pushes fits the limit. *)
Lemma hardSplitLoop_fuel (fuel : nat) :
  ∀ (line : string) (messages : list string),
    JS.len line ≤ fuel →
    ∃ out, hardSplitLoop fuel line messages = Some (messages ++ out)
           ∧ Forall fits out.
Proof.
  pose proof limit_continuation as Hlc.
  pose proof continuation_lt_limit as Hcl.
  induction fuel as [|fuel IH]; intros line messages Hlen.
  - exists []. destruct line; simpl in Hlen; [|lia].
    simpl. rewrite app_nil_r. split; [reflexivity | constructor].
  - cbn [hardSplitLoop].
    destruct (0 <? JS.len line) eqn:Hpos.
    2:{ exists []. rewrite app_nil_r. split; [reflexivity | constructor]. }
    apply Nat.ltb_lt in Hpos.
    pose proof (len_trim_le (JS.substr line 0 limit)) as Hlast.
    pose proof (len_substr_le line limit) as Hsub.
    pose proof (len_trim_le (JS.substrFrom line limit)) as Hrest.
    pose proof (len_substrFrom_le line limit) as Hfrom.
    destruct (0 <? JS.len (JS.trim (JS.substrFrom line limit))) eqn:Hmore.
    + apply Nat.ltb_lt in Hmore.
      destruct (IH (continuation +:+ JS.trim (JS.substrFrom line limit))
                  (messages ++ [JS.trim (JS.substr line 0 limit) +:+ continuation]))
        as (out & Hout & Hfits).
      { rewrite len_append. lia. }
      exists ((JS.trim (JS.substr line 0 limit) +:+ continuation) :: out).
      split.
      * rewrite Hout, <- app_assoc. reflexivity.
      * constructor; [|exact Hfits].
        unfold fits. rewrite len_append. lia.
    + apply Nat.ltb_ge in Hmore.
      destruct (IH (JS.trim (JS.substrFrom line limit))
                  (messages ++ [JS.trim (JS.substr line 0 limit)]))
        as (out & Hout & Hfits); [lia|].
      exists (JS.trim (JS.substr line 0 limit) :: out).
      split.
      * rewrite Hout, <- app_assoc. reflexivity.
      * constructor; [|exact Hfits]. unfold fits. lia.
Qed.

(** [hardSplit] is the result of the loop, which adds chunks that fit. *)
Lemma hardSplit_spec (line : string) (messages : list string) :
  ∃ out, hardSplitLoop (JS.len line) line messages = Some (hardSplit line messages)
         ∧ hardSplit line messages = messages ++ out
         ∧ Forall fits out.
Proof.
  destruct (hardSplitLoop_fuel (JS.len line) line messages (le_n _))
    as (out & Hout & Hfits).
  exists out. unfold hardSplit. rewrite Hout. simpl. auto.
Qed.

(** ** [splitUpMessage] *)

(** C9. A text no longer than the limit is returned as the only chunk,
    unchanged; so is, in particular, a text of exactly [MSG_SIZE_LIMIT]
    characters. *)
Theorem splitUpMessage_short :
  (∀ t : string, JS.len t ≤ MSG_SIZE_LIMIT → splitUpMessage t = [t])
  ∧ (∀ t : string, JS.len t = MSG_SIZE_LIMIT → splitUpMessage t = [t]).
Proof.
  assert (Hle : ∀ t : string, JS.len t ≤ MSG_SIZE_LIMIT → splitUpMessage t = [t]).
  { intros t Hlen. unfold splitUpMessage.
    apply Nat.leb_le in Hlen. rewrite Hlen. reflexivity. }
  split; [exact Hle|].
  intros t Hlen. apply Hle. rewrite Hlen. apply le_n.
Qed.

Lemma splitUpMessage_short_witness :
  splitUpMessage (JS.repeat "x" 4000) = [JS.repeat "x" 4000]
  ∧ splitUpMessage "one line" = ["one line"].
Proof.
  split.
  - apply (proj2 splitUpMessage_short). apply len_repeat.
  - apply (proj1 splitUpMessage_short). apply Nat.leb_le. vm_compute. reflexivity.
Defined.

(** One step of [forEach] keeps what has been pushed, and keeps every
    chunk and the block within the limit as long as the line fits. *)
Lemma forEachLine_fits (messages : list string) (block line : string) :
  Forall fits messages → fits block → fits line →
  Forall fits (forEachLine (messages, block) line).1
  ∧ fits (forEachLine (messages, block) line).2.
Proof.
  intros Hms Hb Hl. unfold forEachLine.
  destruct (JS.len (block +:+ line +:+ String JS.LF "") <=? MSG_SIZE_LIMIT) eqn:Htmp.
  - apply Nat.leb_le in Htmp. simpl. auto.
  - destruct (0 <? JS.len block); simpl.
    + split; [|exact Hl]. apply Forall_app. auto.
    + split; [|exact Hb].
      destruct (hardSplit_spec line messages) as (out & _ & -> & Hout).
      apply Forall_app. auto.
Qed.

Lemma foldl_forEachLine_fits (lines : list string) :
  ∀ (messages : list string) (block : string),
    Forall fits lines → Forall fits messages → fits block →
    Forall fits (foldl forEachLine (messages, block) lines).1
    ∧ fits (foldl forEachLine (messages, block) lines).2.
Proof.
  induction lines as [|line lines IH]; intros messages block Hls Hms Hb.
  - simpl. auto.
  - inversion Hls as [|? ? Hl Hrest]; subst.
    destruct (forEachLine_fits messages block line Hms Hb Hl) as [Hms' Hb'].
    cbn [foldl]. destruct (forEachLine (messages, block) line) as [messages' block'].
    apply IH; assumption.
Qed.

(** X1. Where the chunks do fit: when no line of the text is longer than
    the limit, every chunk is within the limit. *)
Lemma splitUpMessage_fits (t : string) :
  Forall fits (JS.split JS.LF t) → Forall fits (splitUpMessage t).
Proof.
  intros Hlines. unfold splitUpMessage.
  destruct (JS.len t <=? MSG_SIZE_LIMIT) eqn:Hlen.
  - apply Nat.leb_le in Hlen. constructor; [exact Hlen | constructor].
  - assert (Hempty : fits "") by (unfold fits; simpl; lia).
    destruct (foldl_forEachLine_fits (JS.split JS.LF t) [] "" Hlines (Forall_nil_2 _) Hempty)
      as [Hms Hb].
    destruct (foldl forEachLine ([], "") (JS.split JS.LF t)) as [messages block].
    simpl in Hms, Hb.
    destruct (JS.truthy block); [apply Forall_app; auto | exact Hms].
Qed.

(** *** What the chunks keep of the text *)

Lemma append_cons (x : ascii) (a b : string) : String x a +:+ b = String x (a +:+ b).
Proof. reflexivity. Qed.

Lemma append_assoc (a b c : string) : (a +:+ b) +:+ c = a +:+ b +:+ c.
Proof.
  induction a as [|x a IH]; [reflexivity|].
  rewrite !append_cons, IH. reflexivity.
Qed.

Lemma append_empty_r (a : string) : a +:+ "" = a.
Proof.
  induction a as [|x a IH]; [reflexivity|].
  rewrite append_cons, IH. reflexivity.
Qed.

Lemma concat_snoc (messages : list string) (block : string) :
  JS.concat (messages ++ [block]) = JS.concat messages +:+ block.
Proof.
  unfold JS.concat.
  induction messages as [|m messages IH]; cbn [foldr List.app].
  - apply append_empty_r.
  - rewrite IH. symmetry. apply append_assoc.
Qed.

Lemma withoutLF_append (a b : string) :
  withoutLF (a +:+ b) = withoutLF a +:+ withoutLF b.
Proof.
  induction a as [|x a IH]; [reflexivity|].
  rewrite append_cons. cbn [withoutLF].
  destruct (decide (x = JS.LF)); rewrite ?append_cons, IH; reflexivity.
Qed.

(** The lines hold no newline, and put together they are the text without
    its newlines. *)
Lemma splitFields_lines (t : string) :
  withoutLF t = JS.concat ((JS.splitFields JS.LF t).1 :: (JS.splitFields JS.LF t).2)
  ∧ Forall (fun line => withoutLF line = line)
      ((JS.splitFields JS.LF t).1 :: (JS.splitFields JS.LF t).2).
Proof.
  induction t as [|c t [IHeq IHall]]; [split; [reflexivity | repeat constructor]|].
  cbn [JS.splitFields withoutLF].
  destruct (JS.splitFields JS.LF t) as [h tl]. cbn [fst snd] in *.
  destruct (decide (c = JS.LF)) as [->|Hc]; cbn [fst snd].
  - split; [exact IHeq | constructor; [reflexivity | exact IHall]].
  - inversion IHall as [|? ? Hh Htl]; subst. split.
    + rewrite IHeq. reflexivity.
    + constructor; [|exact Htl]. cbn [withoutLF].
      destruct (decide (c = JS.LF)); [contradiction | now rewrite Hh].
Qed.

Lemma split_lines (t : string) :
  withoutLF t = JS.concat (JS.split JS.LF t)
  ∧ Forall (fun line => withoutLF line = line) (JS.split JS.LF t).
Proof.
  unfold JS.split. pose proof (splitFields_lines t) as H.
  destruct (JS.splitFields JS.LF t) as [h tl]. exact H.
Qed.

(** A line shorter than the limit is appended to the block or starts a new
    one; either way the characters pushed and held so far, newlines apart,
    are followed by those of the line. *)
Lemma forEachLine_keeps (messages : list string) (block line : string) :
  JS.len line < MSG_SIZE_LIMIT → withoutLF line = line →
  withoutLF (JS.concat (forEachLine (messages, block) line).1
             +:+ (forEachLine (messages, block) line).2)
  = withoutLF (JS.concat messages +:+ block) +:+ line.
Proof.
  intros Hlen Hline. unfold forEachLine.
  destruct (JS.len (block +:+ line +:+ String JS.LF "") <=? MSG_SIZE_LIMIT) eqn:Htmp;
    cbn [fst snd].
  - rewrite !withoutLF_append, Hline.
    change (withoutLF (String JS.LF "")) with "".
    rewrite append_empty_r, append_assoc. reflexivity.
  - apply Nat.leb_gt in Htmp. rewrite !len_append in Htmp. simpl in Htmp.
    destruct (0 <? JS.len block) eqn:Hblock; cbn [fst snd].
    + rewrite concat_snoc, withoutLF_append, Hline. reflexivity.
    + apply Nat.ltb_ge in Hblock. lia.
Qed.

Lemma foldl_forEachLine_keeps (lines : list string) :
  ∀ (messages : list string) (block : string),
    Forall (fun line => JS.len line < MSG_SIZE_LIMIT) lines →
    Forall (fun line => withoutLF line = line) lines →
    withoutLF (JS.concat (foldl forEachLine (messages, block) lines).1
               +:+ (foldl forEachLine (messages, block) lines).2)
    = withoutLF (JS.concat messages +:+ block) +:+ JS.concat lines.
Proof.
  induction lines as [|line lines IH]; intros messages block Hlen Hline.
  - simpl. now rewrite append_empty_r.
  - inversion Hlen as [|? ? Hl Hls]; inversion Hline as [|? ? Hn Hns]; subst.
    pose proof (forEachLine_keeps messages block line Hl Hn) as Hstep.
    cbn [foldl]. destruct (forEachLine (messages, block) line) as [messages' block'].
    rewrite (IH messages' block' Hls Hns). cbn [fst snd] in Hstep.
    rewrite Hstep, append_assoc. reflexivity.
Qed.

(** X2. When every line is shorter than the limit, the chunks put together
    are the text up to its newlines: the lines are kept whole and in
    order. Which newlines are kept is left open. *)
Lemma splitUpMessage_keeps_lines (t : string) :
  Forall (fun line => JS.len line < MSG_SIZE_LIMIT) (JS.split JS.LF t) →
  withoutLF (JS.concat (splitUpMessage t)) = withoutLF t.
Proof.
  intros Hlen. unfold splitUpMessage.
  destruct (JS.len t <=? MSG_SIZE_LIMIT).
  { change (JS.concat [t]) with (t +:+ ""). now rewrite append_empty_r. }
  destruct (split_lines t) as [Heq Hlines].
  pose proof (foldl_forEachLine_keeps (JS.split JS.LF t) [] "" Hlen Hlines) as Hfold.
  destruct (foldl forEachLine ([], "") (JS.split JS.LF t)) as [messages block].
  assert (Hall : withoutLF (JS.concat messages +:+ block) = JS.concat (JS.split JS.LF t))
    by exact Hfold.
  rewrite Heq, <- Hall.
  destruct block as [|c block]; cbn [JS.truthy].
  - now rewrite append_empty_r.
  - now rewrite concat_snoc.
Qed.

(** C1. The chunks are not all within the limit: for a short line followed
    by a line of 4001 characters, the block that holds the first line is
    pushed and the long line becomes the next block as it is, and is pushed
    whole at the end. *)
Theorem splitUpMessage_oversized_chunk :
  splitUpMessage Fixtures.shortThenLongLine
  = ["a" +:+ String JS.LF ""; JS.repeat "b" 4001]
  ∧ ∃ chunk, chunk ∈ splitUpMessage Fixtures.shortThenLongLine
             ∧ MSG_SIZE_LIMIT < JS.len chunk.
Proof.
  assert (Hrun : splitUpMessage Fixtures.shortThenLongLine
                 = ["a" +:+ String JS.LF ""; JS.repeat "b" 4001])
    by (vm_compute; reflexivity).
  split; [exact Hrun|].
  exists (JS.repeat "b" 4001). split.
  - rewrite Hrun. apply list_elem_of_In. right. left. reflexivity.
  - rewrite len_repeat. unfold MSG_SIZE_LIMIT. apply le_n.
Qed.

(** C2. The chunks do not always make up the text again: of three lines
    none of which is longer than the limit, the second starts a new block
    without its newline, so that the third line is appended to it directly.
    No continuation marker is inserted here, and the chunks put together
    are neither the text nor the text followed by a newline. *)
Theorem splitUpMessage_loses_newline :
  splitUpMessage Fixtures.threeLines
  = [JS.repeat "a" 2001 +:+ String JS.LF "";
     JS.repeat "b" 2000 +:+ "c" +:+ String JS.LF ""]
  ∧ Forall fits (JS.split JS.LF Fixtures.threeLines)
  ∧ JS.concat (splitUpMessage Fixtures.threeLines) ≠ Fixtures.threeLines
  ∧ JS.concat (splitUpMessage Fixtures.threeLines)
    ≠ Fixtures.threeLines +:+ String JS.LF "".
Proof.
  assert (Hrun : splitUpMessage Fixtures.threeLines
                 = [JS.repeat "a" 2001 +:+ String JS.LF "";
                    JS.repeat "b" 2000 +:+ "c" +:+ String JS.LF ""])
    by (vm_compute; reflexivity).
  split; [exact Hrun|]. split.
  - apply Forall_forall. intros line Hin.
    assert (Hall : forallb (fun l => JS.len l <=? MSG_SIZE_LIMIT)
                     (JS.split JS.LF Fixtures.threeLines) = true)
      by (vm_compute; reflexivity).
    rewrite forallb_forall in Hall.
    apply Nat.leb_le, Hall, list_elem_of_In, Hin.
  - rewrite Hrun. split; intros Heq;
      apply String.eqb_eq in Heq; vm_compute in Heq; discriminate Heq.
Qed.

(** The run of [splitUpMessage] on 5000 characters [a]. *)
Lemma splitUpMessage_5000_run :
  splitUpMessage (JS.repeat "a" 5000)
  = [JS.repeat "a" (MSG_SIZE_LIMIT - 3) +:+ "..."; "..." +:+ JS.repeat "a" 1003].
Proof. vm_compute. reflexivity. Qed.

(** C8, as the code has it. A string of 5000 characters [a] makes two
    chunks: the first is the first 4000 - 3 characters followed by the
    marker, 4000 characters in all; the second is the marker followed by
    the remaining 1003 characters. *)
Theorem splitUpMessage_5000 :
  splitUpMessage (JS.repeat "a" 5000)
  = [JS.repeat "a" (MSG_SIZE_LIMIT - 3) +:+ "..."; "..." +:+ JS.repeat "a" 1003]
  ∧ JS.len (JS.repeat "a" (MSG_SIZE_LIMIT - 3) +:+ "...") = MSG_SIZE_LIMIT
  ∧ (MSG_SIZE_LIMIT - 3) + 1003 = 5000.
Proof.
  split; [exact splitUpMessage_5000_run|].
  split; [|reflexivity].
  rewrite len_append, len_repeat. reflexivity.
Qed.

(** C8, as stated, does not hold: the first chunk is not 4000 - 3
    characters long. *)
Lemma splitUpMessage_5000_first_chunk_length :
  ¬ ∃ c1 c2,
      splitUpMessage (JS.repeat "a" 5000) = [c1; c2]
      ∧ JS.len c1 = MSG_SIZE_LIMIT - 3
      ∧ (∃ before, c1 = before +:+ "...")
      ∧ (∃ rest, c2 = "..." +:+ rest).
Proof.
  intros (c1 & c2 & Hrun & Hlen & _).
  rewrite splitUpMessage_5000_run in Hrun.
  assert (Hc1 : c1 = JS.repeat "a" (MSG_SIZE_LIMIT - 3) +:+ "...") by congruence.
  rewrite Hc1, len_append, len_repeat in Hlen.
  apply Nat.eqb_eq in Hlen. vm_compute in Hlen. discriminate Hlen.
Qed.

(** ** [postMessage] *)

Section DispatchFacts.

Context {Net : Type}.
Variable transport : Net -> string -> MessageBody -> Settled (option Response) * Net.
Variable config : Config.t.

Abbreviation W := (World Net).
Abbreviation webhook := (Slack.webhook config).
Abbreviation posted := (Notions.posted config).
Abbreviation chain := (Slack.chain transport config).

(** One chunk: one POST, and the chain goes on exactly when it was
    accepted. *)
Lemma sendChunk_run (chunk : string) (w : W) :
  isEnabled config = true →
  ∃ result net',
    transport (net w) webhook (messageBody chunk) = (result, net')
    ∧ (sendChunk transport config chunk w).2
      = {| net := net'; trace := trace w ++ [posted (chunk, result)] |}
    ∧ (accepted result = true → ∃ v, (sendChunk transport config chunk w).1 = Fulfilled v)
    ∧ (accepted result = false → ∃ e, (sendChunk transport config chunk w).1 = Rejected e).
Proof.
  intros Hen.
  unfold sendChunk, postChunk, andThen, fetch, posted, webhook.
  rewrite Hen. unfold isEnabled in Hen.
  destruct (Config.slack config) as [s|]; [|discriminate Hen].
  destruct (Config.webhookURL s) as [url|]; [|discriminate Hen].
  cbn [negb default from_option id fst snd].
  destruct (transport (net w) url (messageBody chunk)) as [result net'].
  exists result, net'. split; [reflexivity|].
  destruct result as [[r|]|reason]; cbn [accepted resolve reject fst snd].
  - destruct (ok r); cbn; (split; [reflexivity|]); split; intros H;
      (discriminate H || eauto).
  - split; [reflexivity|]. split; intros H; (discriminate H || eauto).
  - split; [reflexivity|]. split; intros H; (discriminate H || eauto).
Qed.

(** Once the chain is rejected, the remaining callbacks are not called. *)
Lemma chain_rejected (chunks : list string) :
  ∀ (promise : Promise W Value) (w w' : W) (reason : Value),
    promise w = (Rejected reason, w') →
    foldl chain promise chunks w = (Rejected reason, w').
Proof.
  induction chunks as [|chunk chunks IH]; intros promise w w' reason Hp.
  - exact Hp.
  - cbn [foldl]. apply IH. unfold chain, andThen. rewrite Hp. reflexivity.
Qed.

(** The chain over the chunks: the POSTs made are those of a prefix of the
    chunks, in order; all but possibly the last were accepted; the chain is
    fulfilled when every chunk was posted and accepted, and rejected when
    the last POST made was not accepted. *)
Lemma chain_sequential (chunks : list string) :
  isEnabled config = true →
  ∀ (promise : Promise W Value) (w w0 : W) (v : Value),
    promise w = (Fulfilled v, w0) →
    ∃ good bad,
      trace (foldl chain promise chunks w).2 = trace w0 ++ (posted <$> good ++ bad)
      ∧ (good ++ bad).*1 = take (length (good ++ bad)) chunks
      ∧ Forall (fun attempt => accepted attempt.2 = true) good
      ∧ match (foldl chain promise chunks w).1 with
        | Fulfilled _ => bad = [] ∧ length good = length chunks
        | Rejected _ => ∃ attempt, bad = [attempt] ∧ accepted attempt.2 = false
        end.
Proof.
  intros Hen.
  induction chunks as [|chunk chunks IH]; intros promise w w0 v Hp.
  - exists [], []. cbn [foldl]. rewrite Hp. cbn. rewrite app_nil_r. auto.
  - cbn [foldl].
    destruct (sendChunk_run chunk w0 Hen) as (result & net' & Htr & Hw & Hacc & Hrej).
    destruct (accepted result) eqn:Hres.
    + destruct (Hacc eq_refl) as [v' Hv'].
      assert (Hstep : chain promise chunk w
                      = (Fulfilled v', {| net := net'; trace := trace w0 ++ [posted (chunk, result)] |})).
      { unfold chain, andThen. rewrite Hp.
        destruct (sendChunk transport config chunk w0) as [res w1].
        cbn in Hw, Hv'. subst. reflexivity. }
      destruct (IH _ _ _ _ Hstep) as (good & bad & Htrace & Hpre & Hgood & Hend).
      exists ((chunk, result) :: good), bad.
      split; [|split; [|split]].
      * rewrite Htrace. cbn [trace]. rewrite <- app_assoc. reflexivity.
      * cbn. rewrite Hpre. reflexivity.
      * constructor; [exact Hres | exact Hgood].
      * destruct ((foldl chain (chain promise chunk) chunks w).1).
        -- destruct Hend as [-> Hlen]. cbn. auto.
        -- exact Hend.
    + destruct (Hrej eq_refl) as [e He].
      assert (Hstep : chain promise chunk w
                      = (Rejected e, {| net := net'; trace := trace w0 ++ [posted (chunk, result)] |})).
      { unfold chain, andThen. rewrite Hp.
        destruct (sendChunk transport config chunk w0) as [res w1].
        cbn in Hw, He. subst. reflexivity. }
      rewrite (chain_rejected chunks _ _ _ _ Hstep).
      exists [], [(chunk, result)]. cbn.
      split; [reflexivity|]. split; [reflexivity|]. split; [constructor|].
      exists (chunk, result). auto.
Qed.

(** [postMessage] on a text to send, with the webhook configured, is the
    chain over the chunks of the text. *)
Lemma postMessage_chain (text : string) :
  text ≠ "" → isEnabled config = true →
  postMessage transport config (Some text)
  = foldl chain (resolve VUndefined) (splitUpMessage text).
Proof.
  intros Htext Hen. unfold postMessage. rewrite Hen.
  destruct text as [|c text]; [congruence|]. reflexivity.
Qed.

Lemma sendChunk_accepted (chunk : string) (w : W) result net' :
  isEnabled config = true →
  transport (net w) webhook (messageBody chunk) = (result, net') →
  accepted result = true →
  ∃ v, sendChunk transport config chunk w
       = (Fulfilled v, {| net := net'; trace := trace w ++ [posted (chunk, result)] |}).
Proof.
  intros Hen Htr Hacc.
  destruct (sendChunk_run chunk w Hen) as (result' & net'' & Htr' & Hw & Hok & _).
  rewrite Htr in Htr'. injection Htr' as <- <-.
  destruct (Hok Hacc) as [v Hv]. exists v.
  destruct (sendChunk transport config chunk w) as [res w1].
  cbn in Hw, Hv. subst. reflexivity.
Qed.

Lemma sendChunk_not_accepted (chunk : string) (w : W) result net' :
  isEnabled config = true →
  transport (net w) webhook (messageBody chunk) = (result, net') →
  accepted result = false →
  ∃ e, sendChunk transport config chunk w
       = (Rejected e, {| net := net'; trace := trace w ++ [posted (chunk, result)] |}).
Proof.
  intros Hen Htr Hacc.
  destruct (sendChunk_run chunk w Hen) as (result' & net'' & Htr' & Hw & _ & Hko).
  rewrite Htr in Htr'. injection Htr' as <- <-.
  destruct (Hko Hacc) as [e He]. exists e.
  destruct (sendChunk transport config chunk w) as [res w1].
  cbn in Hw, He. subst. reflexivity.
Qed.

(** C3. With the webhook configured, [postMessage] posts the chunks of
    the text one after the other: the POSTs made are those of the first
    chunks, in their order, each made after the one before it was accepted,
    and a POST that is not accepted is the last one made, the promise being
    rejected. In particular, when the text makes three chunks and the
    second POST fails, exactly two POSTs are made and the third chunk is
    not sent. *)
Theorem postMessage_sequential :
  isEnabled config = true →
  (∀ (text : string) (w : W),
      text ≠ "" →
      ∃ good bad,
        trace (postMessage transport config (Some text) w).2
        = trace w ++ (posted <$> good ++ bad)
        ∧ (good ++ bad).*1 = take (length (good ++ bad)) (splitUpMessage text)
        ∧ Forall (fun attempt => accepted attempt.2 = true) good
        ∧ match (postMessage transport config (Some text) w).1 with
          | Fulfilled _ => bad = [] ∧ length good = length (splitUpMessage text)
          | Rejected _ => ∃ attempt, bad = [attempt] ∧ accepted attempt.2 = false
          end)
  ∧ (∀ (text : string) (w : W) c1 c2 c3 r1 n1 r2 n2,
        splitUpMessage text = [c1; c2; c3] →
        transport (net w) webhook (messageBody c1) = (r1, n1) →
        accepted r1 = true →
        transport n1 webhook (messageBody c2) = (r2, n2) →
        accepted r2 = false →
        ∃ reason,
          postMessage transport config (Some text) w
          = (Rejected reason,
             {| net := n2; trace := trace w ++ [posted (c1, r1); posted (c2, r2)] |})).
Proof.
  intros Hen. split.
  - intros text w Htext.
    rewrite (postMessage_chain text Htext Hen).
    exact (chain_sequential (splitUpMessage text) Hen (resolve VUndefined) w w VUndefined eq_refl).
  - intros text w c1 c2 c3 r1 n1 r2 n2 Hchunks Ht1 Ha1 Ht2 Ha2.
    assert (Htext : text ≠ "") by (intros ->; discriminate Hchunks).
    rewrite (postMessage_chain text Htext Hen), Hchunks.
    destruct (sendChunk_accepted c1 w r1 n1 Hen Ht1 Ha1) as [v1 Hs1].
    destruct (sendChunk_not_accepted c2
                {| net := n1; trace := trace w ++ [posted (c1, r1)] |} r2 n2 Hen Ht2 Ha2)
      as [e Hs2].
    exists e.
    apply (chain_rejected [c3] (chain (chain (resolve VUndefined) c1) c2)).
    unfold chain, andThen, resolve. rewrite Hs1, Hs2.
    cbn [trace]. rewrite <- app_assoc. reflexivity.
Qed.

(** C10. Without a text, or with the empty text, [postMessage] rejects with
    'No text to send to slack.'; with a text and no webhook URL configured
    it resolves with an empty object. In neither case is anything posted:
    the world is left as it was. *)
Theorem postMessage_no_text_or_disabled :
  (∀ w : W, postMessage transport config None w
            = (Rejected (VStr "No text to send to slack."), w))
  ∧ (∀ w : W, postMessage transport config (Some "") w
              = (Rejected (VStr "No text to send to slack."), w))
  ∧ (∀ (text : string) (w : W),
        text ≠ "" → isEnabled config = false →
        postMessage transport config (Some text) w = (Fulfilled VEmptyObject, w)).
Proof.
  split; [reflexivity|]. split; [reflexivity|].
  intros text w Htext Hen. unfold postMessage. rewrite Hen.
  destruct text as [|c text]; [congruence|]. reflexivity.
Qed.

End DispatchFacts.

(** The webhook drops the second of three requests. *)
Lemma postMessage_sequential_witness :
  (∃ good bad,
      trace (postMessage Fixtures.secondFails Fixtures.slackConfigured
               (Some Fixtures.threeChunks) Fixtures.freshWorld).2
      = trace Fixtures.freshWorld ++ (posted Fixtures.slackConfigured <$> good ++ bad)
      ∧ (good ++ bad).*1
        = take (length (good ++ bad)) (splitUpMessage Fixtures.threeChunks)
      ∧ Forall (fun attempt => accepted attempt.2 = true) good
      ∧ match (postMessage Fixtures.secondFails Fixtures.slackConfigured
                 (Some Fixtures.threeChunks) Fixtures.freshWorld).1 with
        | Fulfilled _ => bad = [] ∧ length good = length (splitUpMessage Fixtures.threeChunks)
        | Rejected _ => ∃ attempt, bad = [attempt] ∧ accepted attempt.2 = false
        end)
  ∧ ∃ reason,
      postMessage Fixtures.secondFails Fixtures.slackConfigured
        (Some Fixtures.threeChunks) Fixtures.freshWorld
      = (Rejected reason,
         {| net := 2;
            trace := [posted Fixtures.slackConfigured
                        (JS.repeat "a" 2001 +:+ String JS.LF "",
                         Fulfilled (Some {| ok := true; error := None |}));
                      posted Fixtures.slackConfigured
                        (JS.repeat "b" 2000, Rejected (VError "socket hang up"))] |}).
Proof.
  pose proof (postMessage_sequential Fixtures.secondFails Fixtures.slackConfigured eq_refl)
    as [Hall Hthree].
  split.
  - apply Hall. intros Hempty. apply String.eqb_eq in Hempty.
    vm_compute in Hempty. discriminate Hempty.
  - apply (Hthree Fixtures.threeChunks Fixtures.freshWorld
             (JS.repeat "a" 2001 +:+ String JS.LF "")
             (JS.repeat "b" 2000) (JS.repeat "c" 2000)
             (Fulfilled (Some {| ok := true; error := None |})) 1
             (Rejected (VError "socket hang up")) 2).
    + vm_compute. reflexivity.
    + reflexivity.
    + reflexivity.
    + reflexivity.
    + reflexivity.
Defined.

Lemma postMessage_no_text_or_disabled_witness :
  postMessage Fixtures.secondFails Fixtures.slackAbsent (Some "v1.2.0 released")
    Fixtures.freshWorld
  = (Fulfilled VEmptyObject, Fixtures.freshWorld).
Proof.
  apply (postMessage_no_text_or_disabled Fixtures.secondFails Fixtures.slackAbsent).
  - discriminate.
  - reflexivity.
Defined.

End SlackFacts.

(** * Properties of the command line program *)

Module CliFacts.

Import Cli.
Import Notions.
Import SlackFacts.

(** ** [parseRange] *)

(** One step of [splitDots]. *)
Lemma splitDots_unfold (c1 : ascii) (r1 : string) :
  splitDots (String c1 r1)
  = match r1 with
    | String c2 (String c3 r3) =>
        if decide (c1 = "."%char ∧ c2 = "."%char ∧ c3 = "."%char)
        then let '(h, t) := splitDots r3 in (EmptyString, h :: t)
        else let '(h, t) := splitDots r1 in (String c1 h, t)
    | _ => let '(h, t) := splitDots r1 in (String c1 h, t)
    end.
Proof. destruct r1 as [|c2 [|c3 r3]]; reflexivity. Qed.

(** The two equations of [splitDots] on a non-empty text: at a separator,
    and at any other character. *)
Lemma splitDots_separator (r : string) :
  splitDots (separator +:+ r) = (EmptyString, (splitDots r).1 :: (splitDots r).2).
Proof.
  change (separator +:+ r) with (String "." (String "." (String "." r))).
  rewrite splitDots_unfold.
  destruct (decide ("."%char = "."%char ∧ "."%char = "."%char ∧ "."%char = "."%char))
    as [_|Hno]; [|exfalso; apply Hno; auto].
  destruct (splitDots r) as [h t]. reflexivity.
Qed.

Lemma splitDots_char (c : ascii) (r : string) :
  String.prefix separator (String c r) = false →
  splitDots (String c r) = (String c (splitDots r).1, (splitDots r).2).
Proof.
  intros Hprefix. rewrite splitDots_unfold.
  destruct r as [|c2 [|c3 r3]].
  - reflexivity.
  - destruct (splitDots (String c2 "")) as [h t]. reflexivity.
  - destruct (decide (c = "."%char ∧ c2 = "."%char ∧ c3 = "."%char))
      as [(-> & -> & ->)|_].
    + destruct r3; cbv in Hprefix; discriminate Hprefix.
    + destruct (splitDots (String c2 (String c3 r3))) as [h t]. reflexivity.
Qed.

Lemma prefix_separator (s : string) :
  String.prefix separator s = true → ∃ r, s = separator +:+ r.
Proof.
  intros Hprefix.
  apply String.prefix_correct in Hprefix. unfold separator in *.
  destruct s as [|c1 [|c2 [|c3 r]]]; simpl in Hprefix; try discriminate Hprefix.
  injection Hprefix as -> -> -> _.
  exists r. reflexivity.
Qed.

Lemma parseRange_eq (s : string) :
  parseRange s = (splitDots s).1 :: (splitDots s).2.
Proof. unfold parseRange. destruct (splitDots s) as [h t]. reflexivity. Qed.

Lemma concat_cons_char (c : ascii) (h : string) (t : list string) :
  String.concat separator (String c h :: t) = String c (String.concat separator (h :: t)).
Proof. destruct t; reflexivity. Qed.

(** The tokens, put together again with the separator between them, are
    the range string. *)
Lemma parseRange_join_bounded (n : nat) :
  ∀ s : string, JS.len s ≤ n → String.concat separator (parseRange s) = s.
Proof.
  induction n as [|n IH]; intros s Hlen.
  - destruct s; [reflexivity | simpl in Hlen; lia].
  - destruct s as [|c r]; [reflexivity|].
    destruct (String.prefix separator (String c r)) eqn:Hprefix.
    + destruct (prefix_separator _ Hprefix) as [r' Hr].
      rewrite Hr in Hlen |- *.
      rewrite parseRange_eq, splitDots_separator. cbn [fst snd].
      change (String.concat separator ("" :: (splitDots r').1 :: (splitDots r').2))
        with (separator +:+ String.concat separator ((splitDots r').1 :: (splitDots r').2)).
      rewrite <- parseRange_eq, IH; [reflexivity|].
      rewrite len_append in Hlen. simpl in Hlen. lia.
    + rewrite parseRange_eq, splitDots_char by exact Hprefix. cbn [fst snd].
      rewrite concat_cons_char, <- parseRange_eq, IH; [reflexivity|].
      simpl in Hlen. lia.
Qed.

Lemma parseRange_join (s : string) : String.concat separator (parseRange s) = s.
Proof. exact (parseRange_join_bounded (JS.len s) s (le_n _)). Qed.

(** A text without separator is one token. *)
Lemma splitDots_no_separator (s : string) :
  hasSeparator s = false → splitDots s = (s, []).
Proof.
  induction s as [|c r IH]; intros Hno; [reflexivity|].
  cbn [hasSeparator] in Hno. apply orb_false_iff in Hno as [Hprefix Hrest].
  rewrite splitDots_char by exact Hprefix.
  rewrite (IH Hrest). reflexivity.
Qed.

(** Three dots found before the end of [x] in [x...y] lie in [x], or
    start at a dot that ends [x]. *)
Lemma prefix_separator_app (x y : string) :
  x ≠ "" →
  String.prefix separator (x +:+ separator +:+ y) = true →
  String.prefix separator x = true ∨ endsWithDot x = true.
Proof.
  intros Hx Hprefix.
  destruct (prefix_separator _ Hprefix) as [r Hr].
  destruct x as [|c1 [|c2 [|c3 x]]]; [congruence| | |].
  - injection Hr as -> _. right. reflexivity.
  - injection Hr as -> -> _. right. reflexivity.
  - injection Hr as -> -> -> _. left. destruct x; reflexivity.
Qed.

Lemma endsWithDot_tail (c : ascii) (x : string) :
  endsWithDot (String c x) = false → endsWithDot x = false.
Proof. destruct x; [reflexivity | intros H; exact H]. Qed.

(** [x...y] is split into [x] and the tokens of [y], when the first three
    dots in a row are those written between them. *)
Lemma splitDots_app (x y : string) :
  hasSeparator x = false → endsWithDot x = false →
  splitDots (x +:+ separator +:+ y) = (x, parseRange y).
Proof.
  induction x as [|c x IH]; intros Hno Hend.
  - change ("" +:+ separator +:+ y) with (separator +:+ y).
    rewrite splitDots_separator, <- parseRange_eq. reflexivity.
  - assert (Hprefix : String.prefix separator (String c x +:+ separator +:+ y) = false).
    { destruct (String.prefix separator (String c x +:+ separator +:+ y)) eqn:Hp;
        [|reflexivity].
      destruct (prefix_separator_app (String c x) y ltac:(discriminate) Hp) as [H|H].
      - cbn [hasSeparator] in Hno. rewrite H in Hno. discriminate Hno.
      - congruence. }
    change (String c x +:+ separator +:+ y) with (String c (x +:+ separator +:+ y)) in *.
    rewrite splitDots_char by exact Hprefix.
    cbn [hasSeparator] in Hno. apply orb_false_iff in Hno as [_ Hrest].
    rewrite (IH Hrest (endsWithDot_tail c x Hend)). reflexivity.
Qed.

(** ** [commandLineArgs] *)

(** The properties of [program] that [commandLineArgs] leaves set. *)
Lemma attributeNames :
  attributeName "-c, --config <filepath>" = "config"
  ∧ attributeName "-r, --range <from>...<to>" = "range"
  ∧ attributeName "-d, --date <date>[...date]" = "date"
  ∧ attributeName "-s, --slack" = "slack"
  ∧ attributeName "--release [release]" = "release".
Proof. repeat split; vm_compute; reflexivity. Qed.

(** The properties that [commandLineArgs] sets, by their names. *)
Lemma commandLineArgs_props (cl : CommandLine) :
  props (commandLineArgs cl)
  = setGiven "release" None (opt_release cl)
      (setGiven "slack" None (if opt_slack cl then Some None else None)
         (setGiven "date" (Some parseRange) (Some <$> opt_date cl)
            (setGiven "range" (Some parseRange) (Some <$> opt_range cl)
               (setGiven "config" None (Some <$> opt_config cl) ∅)))).
Proof.
  unfold commandLineArgs, programOption.
  destruct attributeNames as (-> & -> & -> & -> & ->).
  destruct (opt_config cl), (opt_range cl), (opt_date cl), (opt_slack cl),
    (opt_release cl) as [[?|]|]; reflexivity.
Qed.

Ltac program_prop :=
  intros; unfold prop; rewrite commandLineArgs_props; unfold setGiven, optionValue;
  repeat match goal with
    | |- context [opt_config ?cl] => destruct (opt_config cl)
    | |- context [opt_range ?cl] => destruct (opt_range cl)
    | |- context [opt_date ?cl] => destruct (opt_date cl)
    | |- context [opt_slack ?cl] => destruct (opt_slack cl)
    | |- context [opt_release ?cl] => destruct (opt_release cl) as [[?|]|]
    end;
  cbn [fmap option_fmap option_map];
  repeat (rewrite lookup_insert_ne by discriminate);
  rewrite ?lookup_insert_eq, ?lookup_empty; reflexivity.

Lemma commandLineArgs_range (cl : CommandLine) :
  prop (commandLineArgs cl) "range"
  = from_option (fun r => VArr (parseRange r)) VUndefined (opt_range cl).
Proof. program_prop. Qed.

Lemma commandLineArgs_date (cl : CommandLine) :
  prop (commandLineArgs cl) "date"
  = from_option (fun d => VArr (parseRange d)) VUndefined (opt_date cl).
Proof. program_prop. Qed.

Lemma commandLineArgs_dateRange (cl : CommandLine) :
  prop (commandLineArgs cl) "dateRange" = VUndefined.
Proof. program_prop. Qed.

Lemma commandLineArgs_release (cl : CommandLine) :
  prop (commandLineArgs cl) "release"
  = from_option (from_option VStr VTrue) VUndefined (opt_release cl).
Proof. program_prop. Qed.

(** ** [getRangeObject] *)

Lemma size_eqb_empty (m : Range) : (size m =? 0) = true ↔ m = ∅.
Proof. rewrite Nat.eqb_eq. apply map_size_empty_iff. Qed.

Lemma size_eqb_insert (m : Range) (k : string) (v : Value) :
  (size (<[k := v]> m) =? 0) = false.
Proof.
  apply Nat.eqb_neq. intros Hsize.
  apply map_size_empty_iff in Hsize. exact (insert_non_empty _ _ _ Hsize).
Qed.

(** The test that ends [getRangeObject]. *)
Lemma getRangeObject_cases (config : Config.t) (program : Program) :
  (rangeOf config program = ∅ ∧ getRangeObject config program = Throw noRange)
  ∨ (rangeOf config program ≠ ∅
     ∧ getRangeObject config program = Normal (rangeOf config program)).
Proof.
  unfold getRangeObject.
  destruct (size (rangeOf config program) =? 0) eqn:Hsize.
  - left. split; [apply size_eqb_empty, Hsize | reflexivity].
  - right. split; [|reflexivity].
    intros Hempty. apply size_eqb_empty in Hempty. congruence.
Qed.

(** The range object when the commit range is given and the date range is
    not, whatever the default range. *)
Lemma rangeOf_range (config : Config.t) (program : Program) :
  hasLength (prop program "range") = true →
  hasLength (prop program "dateRange") = false →
  rangeOf config program
  = <["to" := index (prop program "range") 1]>
      (<["from" := index (prop program "range") 0]> ∅).
Proof.
  intros Hrange Hdate. unfold rangeOf. rewrite Hrange, Hdate.
  rewrite size_eqb_insert. reflexivity.
Qed.

(** The properties [from] and [to] when the commit range is given. *)
Lemma rangeOf_from_to (config : Config.t) (program : Program) :
  hasLength (prop program "range") = true →
  rangeOf config program ≠ ∅
  ∧ rangeOf config program !! "from" = Some (index (prop program "range") 0)
  ∧ rangeOf config program !! "to" = Some (index (prop program "range") 1).
Proof.
  intros Hrange. unfold rangeOf. rewrite Hrange.
  destruct (hasLength (prop program "dateRange"));
    [destruct (1 <? lengthOf (prop program "dateRange"))|];
    rewrite size_eqb_insert; cbn [andb];
    (split; [apply insert_non_empty|]);
    split; by simplify_map_eq.
Qed.

(** The range object when the date range is read and the commit range is
    not given: [after] is the first token, and [before] is there exactly
    when there is a second token. *)
Lemma rangeOf_dateRange (config : Config.t) (program : Program) (first : string)
    (more : list string) :
  hasLength (prop program "range") = false →
  prop program "dateRange" = VArr (first :: more) →
  rangeOf config program
  = match more with
    | [] => {[ "after" := VStr first ]}
    | second :: _ => <["before" := VStr second]> {[ "after" := VStr first ]}
    end.
Proof.
  intros Hrange Hdate. unfold rangeOf. rewrite Hrange, Hdate.
  destruct more as [|second more]; cbn [hasLength lengthOf length Nat.ltb Nat.leb index];
    rewrite size_eqb_insert; reflexivity.
Qed.

(** The range object when neither is read: the default range. *)
Lemma rangeOf_default (config : Config.t) (program : Program) :
  hasLength (prop program "range") = false →
  hasLength (prop program "dateRange") = false →
  rangeOf config program = defaultRangeOf config.
Proof.
  intros Hrange Hdate. unfold rangeOf. rewrite Hrange, Hdate.
  change (size (∅ : Range) =? 0) with true. cbn [andb].
  destruct (size (defaultRangeOf config) =? 0) eqn:Hsize; cbn [negb].
  - apply size_eqb_empty in Hsize. congruence.
  - apply map_eq. intros k. rewrite lookup_union, lookup_empty.
    destruct (defaultRangeOf config !! k); reflexivity.
Qed.

(** The range object is empty exactly when neither range is read and the
    default range has no property. *)
Lemma rangeOf_empty (config : Config.t) (program : Program) :
  rangeOf config program = ∅
  ↔ hasLength (prop program "range") = false
    ∧ hasLength (prop program "dateRange") = false
    ∧ defaultRangeOf config = ∅.
Proof.
  split.
  - intros Hempty.
    destruct (hasLength (prop program "range")) eqn:Hrange.
    { destruct (rangeOf_from_to config program Hrange) as [Hne _]. congruence. }
    destruct (hasLength (prop program "dateRange")) eqn:Hdate.
    { exfalso. revert Hempty. unfold rangeOf. rewrite Hrange, Hdate.
      destruct (1 <? lengthOf (prop program "dateRange"));
        rewrite size_eqb_insert; cbn [andb]; apply insert_non_empty. }
    rewrite (rangeOf_default config program Hrange Hdate) in Hempty. auto.
  - intros (Hrange & Hdate & Hdefault).
    rewrite (rangeOf_default config program Hrange Hdate). exact Hdefault.
Qed.

(** C4. The date range given on the command line does not reach the range
    object: [commandLineArgs] declares the option as [--date], whose tokens
    commander keeps in [program.date], and [getRangeObject] reads
    [program.dateRange], which stays undefined. Whatever [--date] is, the
    result is the one without it; with [--date 2020-01-01] alone and no
    default range it is the error of a run without range, and with
    [--date 2020-01-01...2020-02-01] and a default range it is the default
    range, without [after] or [before]. *)
Theorem date_option_not_read :
  attributeName "-d, --date <date>[...date]" = "date"
  ∧ (∀ cl : CommandLine, prop (commandLineArgs cl) "dateRange" = VUndefined)
  ∧ (∀ (config : Config.t) (cl : CommandLine),
        getRangeObject config (commandLineArgs cl)
        = getRangeObject config
            (commandLineArgs
               {| opt_config := opt_config cl; opt_range := opt_range cl;
                  opt_date := None; opt_slack := opt_slack cl;
                  opt_release := opt_release cl; positional := positional cl |}))
  ∧ prop (commandLineArgs (Fixtures.withDate "2020-01-01")) "date"
    = VArr ["2020-01-01"]
  ∧ getRangeObject Fixtures.slackAbsent (commandLineArgs (Fixtures.withDate "2020-01-01"))
    = Throw noRange
  ∧ getRangeObject Fixtures.defaultFromTo
      (commandLineArgs (Fixtures.withDate "2020-01-01...2020-02-01"))
    = Normal {[ "from" := VStr "origin/prod"; "to" := VStr "origin/master" ]}.
Proof.
  split; [vm_compute; reflexivity|].
  split; [exact commandLineArgs_dateRange|].
  split; [|split; [|split]].
  - intros config cl. unfold getRangeObject, rangeOf.
    rewrite !commandLineArgs_dateRange, !commandLineArgs_range. reflexivity.
  - vm_compute. reflexivity.
  - vm_compute. reflexivity.
  - vm_compute. reflexivity.
Qed.

(** What the branch of [getRangeObject] on the date range does with the
    tokens, when [program.dateRange] holds them. *)
Lemma getRangeObject_dateRange (config : Config.t) (program : Program)
    (first : string) (more : list string) :
  hasLength (prop program "range") = false →
  prop program "dateRange" = VArr (first :: more) →
  getRangeObject config program
  = Normal match more with
           | [] => {[ "after" := VStr first ]}
           | second :: _ => <["before" := VStr second]> {[ "after" := VStr first ]}
           end.
Proof.
  intros Hrange Hdate.
  pose proof (rangeOf_dateRange config program first more Hrange Hdate) as Hr.
  destruct (getRangeObject_cases config program) as [[Hempty _]|[_ ->]].
  - rewrite Hr in Hempty. exfalso.
    destruct more; exact (insert_non_empty _ _ _ Hempty).
  - rewrite Hr. reflexivity.
Qed.

(** C5. [getRangeObject] throws 'No range defined for the changelog.'
    exactly when the range object it has built has no property, which is
    exactly when it reads no commit range, no date range and no property of
    a default range; otherwise it returns the object. So it throws when the
    command line has neither [--range] nor [--date] and no default range is
    configured. *)
Theorem getRangeObject_throws :
  (∀ (config : Config.t) (program : Program),
      (getRangeObject config program = Throw noRange ↔ rangeOf config program = ∅)
      ∧ (rangeOf config program = ∅
         ↔ hasLength (prop program "range") = false
           ∧ hasLength (prop program "dateRange") = false
           ∧ defaultRangeOf config = ∅)
      ∧ (rangeOf config program ≠ ∅
         → getRangeObject config program = Normal (rangeOf config program)))
  ∧ (∀ (config : Config.t) (cl : CommandLine),
        opt_range cl = None → opt_date cl = None → defaultRangeOf config = ∅ →
        getRangeObject config (commandLineArgs cl) = Throw noRange).
Proof.
  split.
  - intros config program. split; [|split].
    + destruct (getRangeObject_cases config program) as [[Hempty ->]|[Hne ->]].
      * split; auto.
      * split; [discriminate | contradiction].
    + apply rangeOf_empty.
    + intros Hne.
      destruct (getRangeObject_cases config program) as [[Hempty _]|[_ ->]];
        [contradiction | reflexivity].
  - intros config cl Hrange Hdate Hdefault.
    destruct (getRangeObject_cases config (commandLineArgs cl)) as [[_ ->]|[Hne _]];
      [reflexivity|].
    exfalso. apply Hne. apply rangeOf_empty.
    rewrite commandLineArgs_range, commandLineArgs_dateRange, Hrange. auto.
Qed.

Lemma getRangeObject_throws_witness :
  getRangeObject Fixtures.slackAbsent (commandLineArgs Fixtures.noOptions) = Throw noRange.
Proof.
  apply (proj2 getRangeObject_throws Fixtures.slackAbsent Fixtures.noOptions);
    reflexivity.
Defined.

(** C7, as the code has it. The range string is cut at every three dots in
    a row, from the left: the tokens joined by three dots are the string
    again. A string [x...y] makes the two tokens [x] and [y] when [x] and [y]
    hold no three dots in a row and [x] does not end with a dot. The first
    token becomes [from]; the second becomes [to] when there is one, and
    [to] is undefined otherwise. With the range "abc...def" and no date
    range, the range object is [{from: "abc", to: "def"}]. *)
Theorem parseRange_from_to :
  (∀ s : string, String.concat separator (parseRange s) = s)
  ∧ (∀ x y : string,
        hasSeparator x = false → endsWithDot x = false → hasSeparator y = false →
        parseRange (x +:+ separator +:+ y) = [x; y])
  ∧ (∀ (config : Config.t) (program : Program) (s : string),
        prop program "range" = VArr (parseRange s) →
        ∃ range : Range,
          getRangeObject config program = Normal range
          ∧ range !! "from" = VStr <$> parseRange s !! 0
          ∧ range !! "to" = Some (from_option VStr VUndefined (parseRange s !! 1)))
  ∧ (∀ (config : Config.t) (program : Program),
        prop program "range" = VArr (parseRange "abc...def") →
        prop program "dateRange" = VUndefined →
        getRangeObject config program
        = Normal {[ "from" := VStr "abc"; "to" := VStr "def" ]}).
Proof.
  split; [exact parseRange_join|]. split; [|split].
  - intros x y Hx Hend Hy.
    rewrite parseRange_eq, (splitDots_app x y Hx Hend), parseRange_eq.
    rewrite (splitDots_no_separator y Hy). reflexivity.
  - intros config program s Hprop.
    assert (Hlen : hasLength (prop program "range") = true).
    { rewrite Hprop, parseRange_eq. reflexivity. }
    destruct (rangeOf_from_to config program Hlen) as (Hne & Hfrom & Hto).
    exists (rangeOf config program).
    destruct (getRangeObject_cases config program) as [[Hempty _]|[_ ->]];
      [contradiction|].
    rewrite Hfrom, Hto, Hprop, parseRange_eq. cbn [index].
    split; [reflexivity|]. split; [reflexivity|].
    destruct ((splitDots s).2); reflexivity.
  - intros config program Hrange Hdate.
    assert (Hlen : hasLength (prop program "range") = true).
    { rewrite Hrange. reflexivity. }
    assert (Hno : hasLength (prop program "dateRange") = false).
    { rewrite Hdate. reflexivity. }
    destruct (getRangeObject_cases config program) as [[Hempty _]|[_ ->]].
    + destruct (rangeOf_from_to config program Hlen) as [Hne _]. contradiction.
    + rewrite (rangeOf_range config program Hlen Hno), Hrange.
      vm_compute. reflexivity.
Qed.

Lemma parseRange_from_to_witness :
  parseRange ("v1.0.0" +:+ separator +:+ "v1.1.0") = ["v1.0.0"; "v1.1.0"]
  ∧ (∃ range : Range,
        getRangeObject Fixtures.slackAbsent (commandLineArgs (Fixtures.withRange "HEAD~5"))
        = Normal range
        ∧ range !! "from" = VStr <$> parseRange "HEAD~5" !! 0
        ∧ range !! "to" = Some (from_option VStr VUndefined (parseRange "HEAD~5" !! 1)))
  ∧ getRangeObject Fixtures.slackAbsent (commandLineArgs (Fixtures.withRange "abc...def"))
    = Normal {[ "from" := VStr "abc"; "to" := VStr "def" ]}.
Proof.
  destruct parseRange_from_to as (_ & Htwo & Hany & Habc).
  split; [|split].
  - apply Htwo; reflexivity.
  - apply Hany; reflexivity.
  - apply Habc; reflexivity.
Defined.

(** C7, as stated, does not hold: four dots are not one separator, the
    fourth dot starts the second token; and a range string can make other
    than two tokens, [to] being the second of them, or undefined. *)
Lemma parseRange_four_dots :
  getRangeObject Fixtures.slackAbsent (commandLineArgs (Fixtures.withRange "abc....def"))
  = Normal {[ "from" := VStr "abc"; "to" := VStr ".def" ]}
  ∧ getRangeObject Fixtures.slackAbsent (commandLineArgs (Fixtures.withRange "abc....def"))
    ≠ Normal {[ "from" := VStr "abc"; "to" := VStr "def" ]}
  ∧ parseRange "a...b...c" = ["a"; "b"; "c"]
  ∧ getRangeObject Fixtures.slackAbsent (commandLineArgs (Fixtures.withRange "abc"))
    = Normal {[ "from" := VStr "abc"; "to" := VUndefined ]}.
Proof.
  assert (Hrun : getRangeObject Fixtures.slackAbsent
                   (commandLineArgs (Fixtures.withRange "abc....def"))
                 = Normal {[ "from" := VStr "abc"; "to" := VStr ".def" ]})
    by (vm_compute; reflexivity).
  split; [exact Hrun|]. split; [|split].
  - rewrite Hrun. intros Heq.
    apply (f_equal (fun c : Completion Range =>
                      match c with Normal m => m !! "to" | Throw _ => None end)) in Heq.
    vm_compute in Heq. discriminate Heq.
  - vm_compute. reflexivity.
  - vm_compute. reflexivity.
Qed.

(** ** [runProgram] *)

Section OrchestratorFacts.

Context {Net : Type}.
Variable transport : Net -> string -> MessageBody -> Settled (option Response) * Net.
Variables CommitLogs Changelog ReleaseVersions TmplData : Type.
Variable cwd : string.
Variable pathResolve : string -> string.
Variable readConfigFile : string -> Completion Config.t.
Variable newJira : Config.t -> Completion unit.
Variable newSourceControl : Config.t -> Completion unit.
Variable getCommitLogs : Config.t -> string -> Range -> Settled CommitLogs.
Variable jiraGenerate : Config.t -> CommitLogs -> Value -> Settled (Changelog * ReleaseVersions).
Variable generateTemplateData : Config.t -> Changelog -> ReleaseVersions -> Settled TmplData.
Variable renderTemplate : Config.t -> TmplData -> Completion string.
Variable decode : string -> string.
Variable transformForSlack : Config.t -> option (string -> TmplData -> Settled string).

Abbreviation run :=
  (runProgram transport CommitLogs Changelog ReleaseVersions TmplData cwd pathResolve
     readConfigFile newJira newSourceControl getCommitLogs jiraGenerate
     generateTemplateData renderTemplate decode transformForSlack).

Abbreviation gitPath cl := (gitPathOf cwd pathResolve (commandLineArgs cl)).

(** The release step, when [--release] has no name and the configuration
    has a [jira] block without the function: the guidance is printed and
    the function returns. *)
Lemma releaseVersionName_guidance (config : Config.t) (j : Config.JiraConfig)
    (program : Program) (w : World Net) :
  prop program "release" = VTrue →
  Config.jira config = Some j →
  Config.generateReleaseVersionName j = None →
  releaseVersionName config program w
  = (Fulfilled None,
     {| net := net w; trace := trace w ++ [ConsoleLog [VStr guidance]] |}).
Proof.
  intros Hrelease Hjira Hgen. unfold releaseVersionName.
  rewrite Hrelease, Hjira, Hgen. reflexivity.
Qed.

(** The release step without the function, whether the [jira] block is
    there or not: it does not let the run go on, and starts no step of the
    pipeline. *)
Lemma releaseVersionName_stops (config : Config.t) (program : Program) (w : World Net) :
  prop program "release" = VTrue →
  noGenerator config →
  ∃ event,
    (releaseVersionName config program w).2
    = {| net := net w; trace := trace w ++ event |}
    ∧ Forall (fun e => isPipelineStep e = false) event
    ∧ ∀ next, (releaseVersionName config program w).1 ≠ Fulfilled (Some next).
Proof.
  intros Hrelease Hno. unfold releaseVersionName, noGenerator in *.
  rewrite Hrelease.
  destruct (Config.jira config) as [j|].
  - rewrite Hno. exists [ConsoleLog [VStr guidance]].
    split; [reflexivity|]. split; [repeat constructor | discriminate].
  - exists []. cbn. rewrite app_nil_r. destruct w.
    split; [reflexivity|]. split; [constructor | discriminate].
Qed.

(** The [catch] block only writes to the console. *)
Lemma catchBlock_console (e : Value) (w : World Net) :
  ∃ events,
    (catchBlock e w).2 = {| net := net w; trace := trace w ++ events |}
    ∧ Forall (fun e => isPipelineStep e = false) events.
Proof.
  unfold catchBlock, andThen, ofCompletion, emit.
  destruct (stackOf e) as [stack|e']; cbn.
  - exists [ConsoleError [VStr "Error: "; stack]; ConsoleLog [messageOf e]].
    rewrite <- app_assoc. split; [reflexivity | repeat constructor].
  - exists []. rewrite app_nil_r. destruct w. split; [reflexivity | constructor].
Qed.

(** C6. With [--release] given without a name and a configuration that
    defines no [generateReleaseVersionName] function, the run prints the
    guidance and returns: the promise of [runProgram] is fulfilled, nothing
    is written to the error console, and after the configuration is read
    the only event is the guidance on the console. More generally, also when
    the configuration cannot be read or has no [jira] block, such a run
    starts no step of the pipeline: it fetches no commit log, calls neither
    the issue tracker nor the template renderer, and posts nothing. *)
Theorem release_without_generator :
  (∀ (cl : CommandLine) (config : Config.t) (j : Config.JiraConfig) (w : World Net),
      opt_release cl = Some None →
      readConfigFile (gitPath cl) = Normal config →
      newJira config = Normal tt →
      newSourceControl config = Normal tt →
      Config.jira config = Some j →
      Config.generateReleaseVersionName j = None →
      run cl w
      = (Fulfilled tt,
         {| net := net w;
            trace := trace w ++ [ReadConfigFile (gitPath cl); ConsoleLog [VStr guidance]] |}))
  ∧ (∀ (cl : CommandLine) (w : World Net),
        opt_release cl = Some None →
        (∀ config, readConfigFile (gitPath cl) = Normal config → noGenerator config) →
        ∃ events,
          (run cl w).2 = {| net := net w; trace := trace w ++ events |}
          ∧ Forall (fun e => isPipelineStep e = false) events).
Proof.
  split.
  - intros cl config j w Hrelease Hread Hjira Hsource Hblock Hgen.
    assert (Hprop : prop (commandLineArgs cl) "release" = VTrue).
    { rewrite commandLineArgs_release, Hrelease. reflexivity. }
    unfold runProgram, catch, tryBlock, andThen, emit, ofCompletion.
    rewrite Hread. cbn [resolve]. rewrite Hjira, Hsource. cbn [resolve].
    rewrite (releaseVersionName_guidance config j _ _ Hprop Hblock Hgen).
    cbn. rewrite <- app_assoc. reflexivity.
  - intros cl w Hrelease Hno.
    assert (Hprop : prop (commandLineArgs cl) "release" = VTrue).
    { rewrite commandLineArgs_release, Hrelease. reflexivity. }
    unfold runProgram, catch.
    assert (Htry : ∃ events,
               (tryBlock transport CommitLogs Changelog ReleaseVersions TmplData cwd
                  pathResolve readConfigFile newJira newSourceControl getCommitLogs
                  jiraGenerate generateTemplateData renderTemplate decode
                  transformForSlack cl w).2
               = {| net := net w; trace := trace w ++ events |}
               ∧ Forall (fun e => isPipelineStep e = false) events).
    { unfold tryBlock, andThen, emit, ofCompletion.
      destruct (readConfigFile (gitPath cl)) as [config|e] eqn:Hread; cbn [resolve reject].
      2:{ exists [ReadConfigFile (gitPath cl)]. split; [reflexivity | repeat constructor]. }
      destruct (newJira config) as [[]|e]; cbn [resolve reject].
      2:{ exists [ReadConfigFile (gitPath cl)]. split; [reflexivity | repeat constructor]. }
      destruct (newSourceControl config) as [[]|e]; cbn [resolve reject].
      2:{ exists [ReadConfigFile (gitPath cl)]. split; [reflexivity | repeat constructor]. }
      destruct (releaseVersionName_stops config (commandLineArgs cl)
                  {| net := net w; trace := trace w ++ [ReadConfigFile (gitPath cl)] |}
                  Hprop (Hno config eq_refl))
        as (event & Hw & Hevent & Hnext).
      destruct (releaseVersionName config (commandLineArgs cl) _) as [[[next|]|e] w'];
        cbn [fst snd] in Hw, Hnext; subst w'.
      - exfalso. exact (Hnext next eq_refl).
      - exists (ReadConfigFile (gitPath cl) :: event).
        cbn. rewrite <- app_assoc. split; [reflexivity|].
        constructor; [reflexivity | exact Hevent].
      - exists (ReadConfigFile (gitPath cl) :: event).
        cbn. rewrite <- app_assoc. split; [reflexivity|].
        constructor; [reflexivity | exact Hevent]. }
    destruct Htry as (events & Hw & Hevents).
    destruct (tryBlock _ _ _ _ _ _ _ _ _ _ _ _ _ _ _ _ _ w) as [[[]|e] w'];
      cbn [fst snd] in Hw; subst w'.
    + exists events. split; [reflexivity | exact Hevents].
    + destruct (catchBlock_console e {| net := net w; trace := trace w ++ events |})
        as (more & Hw' & Hmore).
      exists (events ++ more). rewrite Hw'. cbn. rewrite app_assoc.
      split; [reflexivity | apply Forall_app; auto].
Qed.

End OrchestratorFacts.

(** A run with [--release] alone, on a configuration whose [jira] block
    has no generator. *)
Lemma release_without_generator_witness :
  runProgram Fixtures.secondFails (list string) string (list string) string
    "/work/repo" id (Fixtures.loads Fixtures.jiraWithoutGenerator)
    Fixtures.constructed Fixtures.constructed Fixtures.noCommits
    Fixtures.emptyChangelog Fixtures.emptyData Fixtures.rendersData id
    Fixtures.noTransform Fixtures.bareRelease Fixtures.freshWorld
  = (Fulfilled tt,
     {| net := 0;
        trace := [ReadConfigFile "/work/repo"; ConsoleLog [VStr guidance]] |}).
Proof.
  apply (proj1 (release_without_generator Fixtures.secondFails (list string) string
                  (list string) string "/work/repo" id
                  (Fixtures.loads Fixtures.jiraWithoutGenerator)
                  Fixtures.constructed Fixtures.constructed Fixtures.noCommits
                  Fixtures.emptyChangelog Fixtures.emptyData Fixtures.rendersData id
                  Fixtures.noTransform)
           Fixtures.bareRelease Fixtures.jiraWithoutGenerator
           {| Config.generateReleaseVersionName := None |} Fixtures.freshWorld);
    reflexivity.
Defined.

End CliFacts.

(** * Further properties of the Slack integration *)

Module SlackCoverage.

Import Slack.
Import Notions.
Import SlackFacts.

(** ** The chunks of a torn line *)

Lemma limit_three : ∃ n, limit = S (S (S n)).
Proof. exists 3994. reflexivity. Qed.

Lemma prefix_append (p a b : string) :
  String.prefix p a = true → String.prefix p (a +:+ b) = true.
Proof.
  revert a. induction p as [|x p IH]; intros a Hp.
  - destruct (a +:+ b); reflexivity.
  - destruct a as [|y a]; [discriminate Hp|].
    rewrite append_cons. cbn [String.prefix] in *.
    destruct (ascii_dec x y); [|discriminate Hp]. apply IH, Hp.
Qed.

Lemma marker_prefix (r : string) : startsWithMarker (continuation +:+ r) = true.
Proof. unfold startsWithMarker. destruct r; reflexivity. Qed.

Lemma startsWithMarker_inv (s : string) :
  startsWithMarker s = true → ∃ r, s = continuation +:+ r.
Proof.
  intros Hs. apply String.prefix_correct in Hs.
  destruct s as [|c1 [|c2 [|c3 r]]]; simpl in Hs; try discriminate Hs.
  injection Hs as -> -> -> _. exists r. reflexivity.
Qed.

Lemma trimEnd_cons (c : ascii) (r : string) :
  JS.isWhiteSpace c = false → JS.trimEnd (String c r) = String c (JS.trimEnd r).
Proof.
  intros Hc. cbn [JS.trimEnd]. rewrite Hc. destruct (JS.trimEnd r); reflexivity.
Qed.

(** A line that starts with the marker still does after its first slice
    is cut off and trimmed. *)
Lemma slice_keeps_marker (line : string) :
  startsWithMarker line = true →
  startsWithMarker (JS.trim (JS.substr line 0 limit)) = true.
Proof.
  intros Hline. destruct (startsWithMarker_inv line Hline) as [r ->].
  destruct limit_three as [n ->].
  change (JS.substr (continuation +:+ r) 0 (S (S (S n))))
    with (String "." (String "." (String "." (String.substring 0 n r)))).
  unfold JS.trim. cbn [JS.trimStart JS.isWhiteSpace].
  rewrite !trimEnd_cons by reflexivity.
  exact (marker_prefix (JS.trimEnd (String.substring 0 n r))).
Qed.

(** The chunks that the loop pushes for a line: they fit; there is one
    at least; all but the last are a slice followed by the marker, and all
    but the first start with the marker (the first does too when the line
    does). *)
Lemma hardSplitLoop_chunks (fuel : nat) :
  ∀ (line : string) (messages : list string),
    JS.len line ≤ fuel →
    ∃ out,
      hardSplitLoop fuel line messages = Some (messages ++ out)
      ∧ Forall fits out
      ∧ (0 < JS.len line → ∃ heads final, out = (withMarker <$> heads) ++ [final])
      ∧ (startsWithMarker line = true → Forall (fun c => startsWithMarker c = true) out)
      ∧ Forall (fun c => startsWithMarker c = true) (tail out).
Proof.
  pose proof limit_continuation as Hlc.
  pose proof continuation_lt_limit as Hcl.
  induction fuel as [|fuel IH]; intros line messages Hlen.
  - exists []. destruct line; simpl in Hlen; [|lia].
    simpl. rewrite app_nil_r.
    repeat split; try constructor. intros H. inversion H.
  - cbn [hardSplitLoop].
    destruct (0 <? JS.len line) eqn:Hpos.
    2:{ exists []. rewrite app_nil_r. apply Nat.ltb_ge in Hpos.
        repeat split; try constructor. intros H. lia. }
    pose proof (len_trim_le (JS.substr line 0 limit)) as Hlast.
    pose proof (len_substr_le line limit) as Hsub.
    pose proof (len_trim_le (JS.substrFrom line limit)) as Hrest.
    pose proof (len_substrFrom_le line limit) as Hfrom.
    destruct (0 <? JS.len (JS.trim (JS.substrFrom line limit))) eqn:Hmore.
    + apply Nat.ltb_lt in Hmore.
      destruct (IH (continuation +:+ JS.trim (JS.substrFrom line limit))
                  (messages ++ [JS.trim (JS.substr line 0 limit) +:+ continuation]))
        as (out & Hout & Hfits & Hshape & Hstarts & _).
      { rewrite len_append. lia. }
      exists ((JS.trim (JS.substr line 0 limit) +:+ continuation) :: out).
      split; [rewrite Hout, <- app_assoc; reflexivity|].
      split; [constructor; [unfold fits; rewrite len_append; lia | exact Hfits]|].
      split; [|split].
      * intros _. destruct Hshape as (heads & final & ->).
        { rewrite len_append. lia. }
        exists (JS.trim (JS.substr line 0 limit) :: heads), final. reflexivity.
      * intros Hline. constructor.
        -- apply prefix_append, slice_keeps_marker, Hline.
        -- apply Hstarts, marker_prefix.
      * apply Hstarts, marker_prefix.
    + apply Nat.ltb_ge in Hmore.
      assert (Hempty : JS.trim (JS.substrFrom line limit) = "").
      { destruct (JS.trim (JS.substrFrom line limit)); [reflexivity | simpl in Hmore; lia]. }
      rewrite Hempty.
      exists [JS.trim (JS.substr line 0 limit)].
      split; [destruct fuel; reflexivity|].
      split; [constructor; [unfold fits; lia | constructor]|].
      split; [|split].
      * intros _. exists [], (JS.trim (JS.substr line 0 limit)). reflexivity.
      * intros Hline. constructor; [|constructor].
        apply slice_keeps_marker, Hline.
      * constructor.
Qed.

Lemma hardSplit_chunks (line : string) (messages : list string) :
  ∃ out,
    hardSplit line messages = messages ++ out
    ∧ Forall fits out
    ∧ (0 < JS.len line → ∃ heads final, out = (withMarker <$> heads) ++ [final])
    ∧ Forall (fun c => startsWithMarker c = true) (tail out).
Proof.
  destruct (hardSplitLoop_chunks (JS.len line) line messages (le_n _))
    as (out & Hout & Hfits & Hshape & _ & Htail).
  exists out. unfold hardSplit. rewrite Hout. auto.
Qed.

(** ** [splitUpMessage] *)

(** Three lines within the limit. *)
Lemma threeLines_fit : Forall fits (JS.split JS.LF Fixtures.threeLines).
Proof.
  apply Forall_forall. intros line Hin.
  assert (Hall : forallb (fun l => JS.len l <=? MSG_SIZE_LIMIT)
                   (JS.split JS.LF Fixtures.threeLines) = true)
    by (vm_compute; reflexivity).
  rewrite forallb_forall in Hall.
  apply Nat.leb_le, Hall, list_elem_of_In, Hin.
Defined.

Lemma threeLines_short :
  Forall (fun line => JS.len line < MSG_SIZE_LIMIT) (JS.split JS.LF Fixtures.threeLines).
Proof.
  apply Forall_forall. intros line Hin.
  assert (Hall : forallb (fun l => JS.len l <? MSG_SIZE_LIMIT)
                   (JS.split JS.LF Fixtures.threeLines) = true)
    by (vm_compute; reflexivity).
  rewrite forallb_forall in Hall.
  apply Nat.ltb_lt, Hall, list_elem_of_In, Hin.
Defined.

Lemma splitUpMessage_fits_witness : Forall fits (splitUpMessage Fixtures.threeLines).
Proof. exact (splitUpMessage_fits Fixtures.threeLines threeLines_fit). Defined.

Lemma splitUpMessage_keeps_lines_witness :
  withoutLF (JS.concat (splitUpMessage Fixtures.threeLines))
  = withoutLF Fixtures.threeLines.
Proof. exact (splitUpMessage_keeps_lines Fixtures.threeLines threeLines_short). Defined.

(** Whatever the state, after a line is processed something has been
    pushed or the block holds something. *)
Lemma forEachLine_progress (messages : list string) (block line : string) :
  (forEachLine (messages, block) line).1 ≠ []
  ∨ (forEachLine (messages, block) line).2 ≠ "".
Proof.
  pose proof limit_continuation as Hlc.
  pose proof continuation_lt_limit as Hcl.
  unfold forEachLine.
  destruct (JS.len (block +:+ line +:+ String JS.LF "") <=? MSG_SIZE_LIMIT) eqn:Htmp;
    cbn [fst snd].
  - right. intros Hempty. apply (f_equal JS.len) in Hempty.
    rewrite !len_append in Hempty. simpl in Hempty. lia.
  - apply Nat.leb_gt in Htmp. rewrite !len_append in Htmp. simpl in Htmp.
    destruct (0 <? JS.len block) eqn:Hblock; cbn [fst snd]; left.
    + intros Hnil. apply app_eq_nil in Hnil as [_ Hnil]. discriminate Hnil.
    + apply Nat.ltb_ge in Hblock.
      destruct (hardSplit_chunks line messages) as (out & -> & _ & Hshape & _).
      destruct Hshape as (heads & final & ->); [lia|].
      intros Hnil. apply app_eq_nil in Hnil as [_ Hnil].
      apply app_eq_nil in Hnil as [_ Hnil]. discriminate Hnil.
Qed.

(** X3. [splitUpMessage] never returns an empty array: there is always a
    chunk to post. *)
Theorem splitUpMessage_nonempty (t : string) : splitUpMessage t ≠ [].
Proof.
  unfold splitUpMessage.
  destruct (JS.len t <=? MSG_SIZE_LIMIT); [discriminate|].
  assert (Hlines : JS.split JS.LF t ≠ []).
  { unfold JS.split. destruct (JS.splitFields JS.LF t). discriminate. }
  destruct (exists_last Hlines) as (init & line & ->).
  rewrite foldl_app. cbn [foldl].
  destruct (foldl forEachLine ([], "") init) as [messages block].
  pose proof (forEachLine_progress messages block line) as Hprogress.
  destruct (forEachLine (messages, block) line) as [messages' block'].
  cbn [fst snd] in Hprogress.
  destruct block' as [|c block']; cbn [JS.truthy].
  - destruct Hprogress as [H|H]; [exact H | congruence].
  - intros Hnil. apply app_eq_nil in Hnil as [_ Hnil]. discriminate Hnil.
Qed.

(** X4. A text of one line (no newline) is cut into chunks that all fit the
    limit; every chunk but the last is a slice followed by the marker, and
    every chunk but the first starts with the marker. *)
Theorem splitUpMessage_one_line (t : string) :
  JS.split JS.LF t = [t] →
  Forall fits (splitUpMessage t)
  ∧ (∃ heads final, splitUpMessage t = (withMarker <$> heads) ++ [final])
  ∧ Forall (fun c => startsWithMarker c = true) (tail (splitUpMessage t)).
Proof.
  intros Hline. pose proof limit_continuation as Hlc.
  pose proof continuation_lt_limit as Hcl.
  unfold splitUpMessage.
  destruct (JS.len t <=? MSG_SIZE_LIMIT) eqn:Hlen.
  - apply Nat.leb_le in Hlen. split; [constructor; [exact Hlen | constructor]|].
    split; [exists [], t; reflexivity | constructor].
  - apply Nat.leb_gt in Hlen. rewrite Hline. cbn [foldl forEachLine].
    destruct (JS.len ("" +:+ t +:+ String JS.LF "") <=? MSG_SIZE_LIMIT) eqn:Htmp.
    { apply Nat.leb_le in Htmp. rewrite !len_append in Htmp. simpl in Htmp. lia. }
    cbn [JS.len Nat.ltb Nat.leb JS.truthy].
    destruct (hardSplit_chunks t []) as (out & -> & Hfits & Hshape & Htail).
    cbn [List.app].
    split; [exact Hfits|]. split; [|exact Htail].
    apply Hshape. lia.
Qed.

Lemma splitUpMessage_one_line_witness :
  Forall fits (splitUpMessage (JS.repeat "a" 5000))
  ∧ (∃ heads final,
        splitUpMessage (JS.repeat "a" 5000) = (withMarker <$> heads) ++ [final])
  ∧ Forall (fun c => startsWithMarker c = true)
      (tail (splitUpMessage (JS.repeat "a" 5000))).
Proof.
  apply (splitUpMessage_one_line (JS.repeat "a" 5000)).
  vm_compute. reflexivity.
Defined.

(** ** [postChunk] and [postMessage] *)

Section DispatchCoverage.

Context {Net : Type}.
Variable transport : Net -> string -> MessageBody -> Settled (option Response) * Net.
Variable config : Config.t.

Abbreviation W := (World Net).
Abbreviation webhook := (Slack.webhook config).
Abbreviation posted := (Notions.posted config).
Abbreviation chain := (Slack.chain transport config).

(** X5. With a webhook URL configured, [postChunk] makes one request, to
    that URL, with the chunk as the text of the only block of the body, and
    settles as the request does. With the Slack block but no URL it rejects
    with 'The slack API is not configured.' and makes no request. *)
Theorem postChunk_request (s : Config.SlackConfig) :
  Config.slack config = Some s →
  (∀ (url body : string) (w : W),
      Config.webhookURL s = Some url → url ≠ "" →
      postChunk transport config body w
      = ((transport (net w) url (messageBody body)).1,
         {| net := (transport (net w) url (messageBody body)).2;
            trace := trace w
                     ++ [Post url (messageBody body)
                           (transport (net w) url (messageBody body)).1] |})
      ∧ (text_text ∘ block_text) <$> blocks (messageBody body) = [body])
  ∧ (∀ (body : string) (w : W),
        (Config.webhookURL s = None ∨ Config.webhookURL s = Some "") →
        postChunk transport config body w
        = (Rejected (VStr "The slack API is not configured."), w)).
Proof.
  intros Hslack. split.
  - intros url body w Hurl Hne. split; [|reflexivity].
    unfold postChunk, Slack.webhook, isEnabled, fetch, andThen, resolve.
    rewrite Hslack, Hurl. cbn [default from_option id].
    destruct url as [|c url]; [congruence|]. cbn [JS.truthy negb].
    destruct (transport (net w) (String c url) (messageBody body)) as [[r|e] net'];
      reflexivity.
  - intros body w Hurl.
    unfold postChunk, isEnabled. rewrite Hslack.
    destruct Hurl as [-> | ->]; reflexivity.
Qed.

(** X6. A text within the limit is sent in one POST that carries the whole
    text. The promise is fulfilled with the response when the response is
    ok, rejected with the response's [error] (undefined when it has none)
    when it is not, and rejected with the reason of the request when the
    request fails. *)
Theorem postMessage_short_text (text : string) (w : W)
    (result : Settled (option Response)) (net' : Net) :
  isEnabled config = true →
  text ≠ "" → JS.len text ≤ MSG_SIZE_LIMIT →
  transport (net w) webhook (messageBody text) = (result, net') →
  postMessage transport config (Some text) w
  = (match result with
     | Fulfilled (Some r) =>
         if ok r then Fulfilled (VResponse r)
         else Rejected (from_option VStr VUndefined (error r))
     | Fulfilled None => Fulfilled VNull
     | Rejected reason => Rejected reason
     end,
     {| net := net'; trace := trace w ++ [posted (text, result)] |}).
Proof.
  intros Hen Htext Hlen Htr.
  rewrite (postMessage_chain transport config text Htext Hen).
  assert (Hchunks : splitUpMessage text = [text]).
  { unfold splitUpMessage. apply Nat.leb_le in Hlen. rewrite Hlen. reflexivity. }
  rewrite Hchunks. cbn [foldl].
  unfold Slack.chain, sendChunk, postChunk, andThen, resolve, fetch, Notions.posted.
  rewrite Hen. unfold isEnabled in Hen.
  destruct (Config.slack config) as [s|] eqn:Hslack; [|discriminate Hen].
  cbn [negb].
  assert (Hweb : webhook = default "undefined" (Config.webhookURL s)).
  { unfold Slack.webhook. rewrite Hslack. reflexivity. }
  rewrite Hweb in Htr |- *. rewrite Htr.
  destruct result as [[r|]|reason]; cbn [fst snd]; try reflexivity.
  destruct (ok r); cbn [negb]; [reflexivity|].
  destruct (error r); reflexivity.
Qed.

(** With every request accepted, the chain posts every chunk. *)
Lemma chain_all_accepted (chunks : list string) :
  isEnabled config = true →
  (∀ n url body, accepted (transport n url body).1 = true) →
  ∀ (promise : Promise W Value) (w w0 : W) (v : Value),
    promise w = (Fulfilled v, w0) →
    ∃ v' results,
      (foldl chain promise chunks w).1 = Fulfilled v'
      ∧ length results = length chunks
      ∧ Forall (fun r => accepted r = true) results
      ∧ trace (foldl chain promise chunks w).2
        = trace w0 ++ (posted <$> zip chunks results).
Proof.
  intros Hen Hok.
  induction chunks as [|chunk chunks IH]; intros promise w w0 v Hp.
  - exists v, []. cbn [foldl]. rewrite Hp. cbn. rewrite app_nil_r.
    repeat split; constructor.
  - cbn [foldl].
    destruct (transport (net w0) webhook (messageBody chunk)) as [result net'] eqn:Htr.
    assert (Hacc : accepted result = true).
    { specialize (Hok (net w0) webhook (messageBody chunk)). rewrite Htr in Hok. exact Hok. }
    destruct (sendChunk_accepted transport config chunk w0 result net' Hen Htr Hacc)
      as [v1 Hsend].
    assert (Hstep : chain promise chunk w
                    = (Fulfilled v1,
                       {| net := net'; trace := trace w0 ++ [posted (chunk, result)] |})).
    { unfold Slack.chain, andThen. rewrite Hp. exact Hsend. }
    destruct (IH _ _ _ _ Hstep) as (v' & results & Hres & Hlen & Hall & Htrace).
    exists v', (result :: results).
    split; [exact Hres|]. split; [cbn; lia|].
    split; [constructor; assumption|].
    rewrite Htrace. cbn [trace zip zip_with fmap list_fmap].
    rewrite <- app_assoc. reflexivity.
Qed.

(** X7. When the webhook accepts every request, [postMessage] posts every
    chunk of the text, in order, one POST each, and its promise is
    fulfilled. *)
Theorem postMessage_all_accepted :
  isEnabled config = true →
  (∀ n url body, accepted (transport n url body).1 = true) →
  ∀ (text : string) (w : W),
    text ≠ "" →
    ∃ v results,
      (postMessage transport config (Some text) w).1 = Fulfilled v
      ∧ length results = length (splitUpMessage text)
      ∧ Forall (fun r => accepted r = true) results
      ∧ trace (postMessage transport config (Some text) w).2
        = trace w ++ (posted <$> zip (splitUpMessage text) results).
Proof.
  intros Hen Hok text w Htext.
  rewrite (postMessage_chain transport config text Htext Hen).
  exact (chain_all_accepted (splitUpMessage text) Hen Hok
           (resolve VUndefined) w w VUndefined eq_refl).
Qed.

End DispatchCoverage.

Lemma postChunk_request_witness :
  postChunk Fixtures.alwaysOk Fixtures.slackWithoutURL "v1.2.0 released"
    Fixtures.freshWorld
  = (Rejected (VStr "The slack API is not configured."), Fixtures.freshWorld)
  ∧ postChunk Fixtures.alwaysOk Fixtures.slackConfigured "v1.2.0 released"
      Fixtures.freshWorld
    = (Fulfilled (Some {| ok := true; error := None |}),
       {| net := 1;
          trace := [Post "https://hooks.slack.test/services/T0"
                      (messageBody "v1.2.0 released")
                      (Fulfilled (Some {| ok := true; error := None |}))] |}).
Proof.
  split.
  - apply (proj2 (postChunk_request Fixtures.alwaysOk Fixtures.slackWithoutURL
                    {| Config.webhookURL := None; Config.channel := Some "releases" |}
                    eq_refl)).
    left. reflexivity.
  - apply (proj1 (postChunk_request Fixtures.alwaysOk Fixtures.slackConfigured
                    {| Config.webhookURL := Some "https://hooks.slack.test/services/T0";
                       Config.channel := Some "releases" |}
                    eq_refl)
             "https://hooks.slack.test/services/T0" "v1.2.0 released"
             Fixtures.freshWorld eq_refl).
    discriminate.
Defined.

Lemma postMessage_short_text_witness :
  postMessage Fixtures.alwaysRefused Fixtures.slackConfigured (Some "v1.2.0 released")
    Fixtures.freshWorld
  = (Rejected (VStr "invalid_payload"),
     {| net := 1;
        trace := [posted Fixtures.slackConfigured
                    ("v1.2.0 released",
                     Fulfilled (Some {| ok := false; error := Some "invalid_payload" |}))] |}).
Proof.
  apply (postMessage_short_text Fixtures.alwaysRefused Fixtures.slackConfigured
           "v1.2.0 released" Fixtures.freshWorld
           (Fulfilled (Some {| ok := false; error := Some "invalid_payload" |})) 1).
  - reflexivity.
  - discriminate.
  - apply Nat.leb_le. vm_compute. reflexivity.
  - reflexivity.
Defined.

Lemma postMessage_all_accepted_witness :
  ∃ v results,
    (postMessage Fixtures.alwaysOk Fixtures.slackConfigured
       (Some Fixtures.threeChunks) Fixtures.freshWorld).1 = Fulfilled v
    ∧ length results = length (splitUpMessage Fixtures.threeChunks)
    ∧ Forall (fun r => accepted r = true) results
    ∧ trace (postMessage Fixtures.alwaysOk Fixtures.slackConfigured
               (Some Fixtures.threeChunks) Fixtures.freshWorld).2
      = trace Fixtures.freshWorld
        ++ (posted Fixtures.slackConfigured
              <$> zip (splitUpMessage Fixtures.threeChunks) results).
Proof.
  apply (postMessage_all_accepted Fixtures.alwaysOk Fixtures.slackConfigured).
  - reflexivity.
  - intros n url body. reflexivity.
  - intros Hempty. apply String.eqb_eq in Hempty. vm_compute in Hempty.
    discriminate Hempty.
Defined.

End SlackCoverage.

(** * Further properties of the command line program *)

Module CliCoverage.

Import Slack.
Import Cli.
Import Notions.
Import SlackFacts.
Import SlackCoverage.
Import CliFacts.

(** ** [parseRange] *)

Lemma concat_head (h : string) (t : list string) :
  ∃ rest, String.concat separator (h :: t) = h +:+ rest.
Proof.
  destruct t as [|x t].
  - exists "". cbn. now rewrite append_empty_r.
  - exists (separator +:+ String.concat separator (x :: t)). reflexivity.
Qed.

Lemma splitDots_clean_bounded (n : nat) :
  ∀ s : string,
    JS.len s ≤ n →
    hasSeparator (splitDots s).1 = false
    ∧ Forall (fun token => hasSeparator token = false) (splitDots s).2.
Proof.
  induction n as [|n IH]; intros s Hlen.
  - destruct s; [split; [reflexivity | constructor] | simpl in Hlen; lia].
  - destruct s as [|c r]; [split; [reflexivity | constructor]|].
    destruct (String.prefix separator (String c r)) eqn:Hprefix.
    + destruct (prefix_separator _ Hprefix) as [r' Hr].
      rewrite Hr in Hlen |- *. rewrite splitDots_separator. cbn [fst snd].
      rewrite len_append in Hlen. simpl in Hlen.
      destruct (IH r' ltac:(lia)) as [Hhead Htail].
      split; [reflexivity | constructor; assumption].
    + rewrite splitDots_char by exact Hprefix. cbn [fst snd].
      simpl in Hlen. destruct (IH r ltac:(lia)) as [Hhead Htail].
      split; [|exact Htail].
      cbn [hasSeparator]. rewrite Hhead, orb_false_r.
      destruct (String.prefix separator (String c (splitDots r).1)) eqn:Hp;
        [|reflexivity].
      destruct (concat_head (splitDots r).1 (splitDots r).2) as [rest Hrest].
      rewrite <- parseRange_eq, parseRange_join in Hrest.
      apply (prefix_append _ _ rest) in Hp.
      rewrite append_cons, <- Hrest in Hp. congruence.
Qed.

(** X8. No token that [parseRange] returns holds three dots in a row: every
    such run of the range string is used up as a separator. *)
Theorem parseRange_tokens_clean (s : string) :
  Forall (fun token => hasSeparator token = false) (parseRange s).
Proof.
  rewrite parseRange_eq.
  destruct (splitDots_clean_bounded (JS.len s) s (le_n _)) as [Hhead Htail].
  constructor; assumption.
Qed.

(** ** [getRangeObject] *)

(** X9. A range string without three dots in a row is no error: it becomes
    [from], [to] is set to undefined, and the default range is not used. *)
Theorem range_without_separator (config : Config.t) (cl : CommandLine) (s : string) :
  opt_range cl = Some s →
  hasSeparator s = false →
  getRangeObject config (commandLineArgs cl)
  = Normal (<["to" := VUndefined]> {[ "from" := VStr s ]}).
Proof.
  intros Hrange Hclean.
  assert (Hprop : prop (commandLineArgs cl) "range" = VArr [s]).
  { rewrite commandLineArgs_range, Hrange. cbn [from_option].
    rewrite parseRange_eq, (splitDots_no_separator s Hclean). reflexivity. }
  assert (Hlen : hasLength (prop (commandLineArgs cl) "range") = true)
    by (rewrite Hprop; reflexivity).
  assert (Hno : hasLength (prop (commandLineArgs cl) "dateRange") = false)
    by (rewrite commandLineArgs_dateRange; reflexivity).
  destruct (getRangeObject_cases config (commandLineArgs cl)) as [[Hempty _]|[_ ->]].
  - destruct (rangeOf_from_to config _ Hlen) as [Hne _]. contradiction.
  - rewrite (rangeOf_range config _ Hlen Hno), Hprop, insert_empty. reflexivity.
Qed.

Lemma range_without_separator_witness :
  getRangeObject Fixtures.defaultFromTo (commandLineArgs (Fixtures.withRange "v1.0.0..v1.1.0"))
  = Normal (<["to" := VUndefined]> {[ "from" := VStr "v1.0.0..v1.1.0" ]}).
Proof.
  apply (range_without_separator Fixtures.defaultFromTo
           (Fixtures.withRange "v1.0.0..v1.1.0") "v1.0.0..v1.1.0");
    reflexivity.
Defined.

(** X10. As soon as a commit range or a date range is read, the
    configuration plays no part in the range object: no property of the
    default range is copied into it. *)
Theorem read_range_ignores_default (program : Program) :
  hasLength (prop program "range") = true
  ∨ hasLength (prop program "dateRange") = true →
  ∀ config config' : Config.t,
    getRangeObject config program = getRangeObject config' program.
Proof.
  intros Hread config config'. unfold getRangeObject.
  assert (Hsame : rangeOf config program = rangeOf config' program).
  { unfold rangeOf.
    destruct (hasLength (prop program "range")) eqn:Hrange;
      destruct (hasLength (prop program "dateRange")) eqn:Hdate;
      try destruct (1 <? lengthOf (prop program "dateRange"));
      rewrite ?size_eqb_insert; try reflexivity.
    all: destruct Hread; discriminate. }
  rewrite Hsame. reflexivity.
Qed.

Lemma read_range_ignores_default_witness :
  getRangeObject Fixtures.defaultFromTo (commandLineArgs (Fixtures.withRange "abc...def"))
  = getRangeObject Fixtures.slackAbsent (commandLineArgs (Fixtures.withRange "abc...def")).
Proof.
  apply (read_range_ignores_default (commandLineArgs (Fixtures.withRange "abc...def"))).
  left. reflexivity.
Defined.

(** X11. When neither a commit range nor a date range is read and the
    default range has a property, [getRangeObject] returns the default
    range: the same properties with the same values, and no other. *)
Theorem default_range_used (config : Config.t) (program : Program) :
  hasLength (prop program "range") = false →
  hasLength (prop program "dateRange") = false →
  defaultRangeOf config ≠ ∅ →
  getRangeObject config program = Normal (defaultRangeOf config)
  ∧ ∀ (sc : Config.SourceControlConfig) (d : Range),
      Config.sourceControl config = Some sc → Config.defaultRange sc = Some d →
      getRangeObject config program = Normal d.
Proof.
  intros Hrange Hdate Hdefault.
  assert (Hget : getRangeObject config program = Normal (defaultRangeOf config)).
  { destruct (getRangeObject_cases config program) as [[Hempty _]|[_ ->]].
    - rewrite (rangeOf_default config program Hrange Hdate) in Hempty. contradiction.
    - rewrite (rangeOf_default config program Hrange Hdate). reflexivity. }
  split; [exact Hget|].
  intros sc d Hsc Hd. rewrite Hget. unfold defaultRangeOf. rewrite Hsc, Hd. reflexivity.
Qed.

Lemma default_range_used_witness :
  getRangeObject Fixtures.defaultFromTo (commandLineArgs Fixtures.noOptions)
  = Normal {[ "from" := VStr "origin/prod"; "to" := VStr "origin/master" ]}.
Proof.
  apply (proj1 (default_range_used Fixtures.defaultFromTo
                  (commandLineArgs Fixtures.noOptions) eq_refl eq_refl
                  ltac:(vm_compute; discriminate))).
Defined.

(** X12. When [program.dateRange] holds tokens, the range object has
    [after] set to the first and [before] set to the second when there is
    one; this is done beside the commit range, not instead of it: [from] and
    [to] are there exactly when the commit range is read. *)
Theorem dateRange_tokens (config : Config.t) (program : Program) (first : string)
    (more : list string) :
  prop program "dateRange" = VArr (first :: more) →
  ∃ range : Range,
    getRangeObject config program = Normal range
    ∧ range !! "after" = Some (VStr first)
    ∧ range !! "before" = VStr <$> head more
    ∧ (hasLength (prop program "range") = true →
       range !! "from" = Some (index (prop program "range") 0)
       ∧ range !! "to" = Some (index (prop program "range") 1))
    ∧ (hasLength (prop program "range") = false →
       range !! "from" = None ∧ range !! "to" = None).
Proof.
  intros Hdate. exists (rangeOf config program).
  assert (Hne : rangeOf config program ≠ ∅).
  { intros Hempty. apply rangeOf_empty in Hempty as (_ & Hno & _).
    rewrite Hdate in Hno. discriminate Hno. }
  split.
  { destruct (getRangeObject_cases config program) as [[Hempty _]|[_ ->]];
      [contradiction | reflexivity]. }
  clear Hne. unfold rangeOf. rewrite Hdate.
  destruct (hasLength (prop program "range")) eqn:Hrange;
    destruct more as [|second more];
    cbn [hasLength lengthOf length Nat.ltb Nat.leb index head fmap option_fmap option_map];
    rewrite size_eqb_insert; cbn [andb];
    repeat split; intros; try discriminate; by simplify_map_eq.
Qed.

Lemma dateRange_tokens_witness :
  ∃ range : Range,
    getRangeObject Fixtures.slackAbsent Fixtures.withDateRange = Normal range
    ∧ range !! "after" = Some (VStr "2020-01-01")
    ∧ range !! "before" = VStr <$> head ["2020-02-01"]
    ∧ (hasLength (prop Fixtures.withDateRange "range") = true →
       range !! "from" = Some (index (prop Fixtures.withDateRange "range") 0)
       ∧ range !! "to" = Some (index (prop Fixtures.withDateRange "range") 1))
    ∧ (hasLength (prop Fixtures.withDateRange "range") = false →
       range !! "from" = None ∧ range !! "to" = None).
Proof.
  apply (dateRange_tokens Fixtures.slackAbsent Fixtures.withDateRange
           "2020-01-01" ["2020-02-01"]).
  reflexivity.
Defined.

(** ** [postToSlack] *)

Section DeliveryCoverage.

Context {Net : Type}.
Variable transport : Net -> string -> MessageBody -> Settled (option Response) * Net.
Variable TmplData : Type.
Variable transformForSlack : Config.t -> option (string -> TmplData -> Settled string).

Abbreviation deliver := (postToSlack transport TmplData transformForSlack).

(** What [postMessage] adds to the trace are POSTs of chunks, and when its
    promise is fulfilled every one of them was accepted. *)
Lemma postMessage_attempts (config : Config.t) (text : option string) (w : World Net) :
  ∃ attempts,
    trace (postMessage transport config text w).2
    = trace w ++ (posted config <$> attempts)
    ∧ (∀ v, (postMessage transport config text w).1 = Fulfilled v →
            Forall (fun attempt => accepted attempt.2 = true) attempts)
    ∧ (∀ t, text = Some t →
            attempts.*1 = take (length attempts) (splitUpMessage t)).
Proof.
  destruct text as [[|c text]|].
  - exists []. cbn. rewrite app_nil_r.
    split; [reflexivity|]. split; [discriminate | reflexivity].
  - destruct (isEnabled config) eqn:Hen.
    + assert (Htext : String c text ≠ "") by discriminate.
      destruct (chain_sequential transport config (splitUpMessage (String c text)) Hen
                  (resolve VUndefined) w w VUndefined eq_refl)
        as (good & bad & Htrace & Hprefix & Hgood & Hend).
      rewrite <- (postMessage_chain transport config _ Htext Hen) in Htrace, Hend.
      exists (good ++ bad). split; [exact Htrace|]. split.
      * intros v Hv. rewrite Hv in Hend. destruct Hend as [-> _].
        rewrite app_nil_r. exact Hgood.
      * intros t [= <-]. exact Hprefix.
    + exists []. unfold postMessage. rewrite Hen. cbn. rewrite app_nil_r.
      split; [reflexivity|]. split; [constructor | reflexivity].
  - exists []. cbn. rewrite app_nil_r.
    split; [reflexivity|]. split; [discriminate | reflexivity].
Qed.

(** The delivery of a message once it is known to be attempted, from the
    world [w1] in which it starts. *)
Lemma delivery_outcome (config : Config.t) (message : string) (w1 : World Net) :
  ∃ attempts final,
    (catch (postMessage transport config (Some message) ;;;
            emit (ConsoleLog [VStr "Done"]))%promise
       (fun e => emit (ConsoleLog [VStr "Error: "; e])) w1).1 = Fulfilled tt
    ∧ trace (catch (postMessage transport config (Some message) ;;;
                    emit (ConsoleLog [VStr "Done"]))%promise
               (fun e => emit (ConsoleLog [VStr "Error: "; e])) w1).2
      = trace w1 ++ (posted config <$> attempts) ++ [final]
    ∧ (final = done ∨ ∃ e, final = deliveryError e)
    ∧ (final = done → Forall (fun attempt => accepted attempt.2 = true) attempts)
    ∧ attempts.*1 = take (length attempts) (splitUpMessage message).
Proof.
  destruct (postMessage_attempts config (Some message) w1)
    as (attempts & Htrace & Hok & Hchunks).
  specialize (Hchunks message eq_refl).
  exists attempts. unfold catch, andThen, emit.
  destruct (postMessage transport config (Some message) w1) as [[v|e] w2];
    cbn [fst snd] in *.
  - exists done. rewrite Htrace, <- app_assoc.
    split; [reflexivity|]. split; [reflexivity|]. split; [left; reflexivity|].
    split; [|exact Hchunks]. intros _. exact (Hok v eq_refl).
  - exists (deliveryError e). rewrite Htrace, <- app_assoc.
    split; [reflexivity|]. split; [reflexivity|]. split; [right; eauto|].
    split; [discriminate | exact Hchunks].
Qed.

Lemma catch_andThen {A B : Type} (p : Promise (World Net) A)
    (k : A → Promise (World Net) B) (h : Value → Promise (World Net) B) (w : World Net) :
  catch (andThen p k) h w
  = match p w with
    | (Fulfilled a, w') => catch (k a) h w'
    | (Rejected e, w') => h e w'
    end.
Proof. unfold catch, andThen. destruct (p w) as [[a|e] w']; reflexivity. Qed.

Lemma postToSlack_unconfigured (config : Config.t) (data : TmplData) (message : string)
    (w : World Net) :
  configured config = false →
  deliver config data message w
  = (Fulfilled tt, {| net := net w; trace := trace w ++ [notConfigured] |}).
Proof.
  unfold configured, postToSlack. intros Hcfg.
  destruct (isEnabled config), (JS.truthy (channelOf config));
    try discriminate Hcfg; reflexivity.
Qed.

(** The shape of what [postToSlack] does: the lines before the POSTs, the
    POSTs, and the line that ends it. *)
Lemma postToSlack_shape (config : Config.t) (data : TmplData) (message : string)
    (w : World Net) :
  (deliver config data message w).1 = Fulfilled tt
  ∧ ∃ prelude attempts final,
      trace (deliver config data message w).2
      = trace w ++ prelude ++ (posted config <$> attempts) ++ [final]
      ∧ (configured config = false
         ∧ prelude = [] ∧ attempts = [] ∧ final = notConfigured
         ∨ configured config = true
           ∧ (prelude = [posting config]
              ∨ prelude = [posting config; TransformForSlack message])
           ∧ (final = done ∨ ∃ e, final = deliveryError e))
      ∧ (final = done → Forall (fun attempt => accepted attempt.2 = true) attempts).
Proof.
  destruct (configured config) eqn:Hcfg.
  2:{ rewrite (postToSlack_unconfigured config data message w Hcfg).
      split; [reflexivity|]. exists [], [], notConfigured.
      split; [reflexivity|]. split; [left; auto | discriminate]. }
  unfold configured in Hcfg. apply andb_true_iff in Hcfg as [Hen Hch].
  remember (deliver config data message w) as r eqn:Hr.
  unfold postToSlack in Hr. rewrite Hen, Hch in Hr. cbn [negb orb] in Hr.
  unfold andThen at 1 in Hr. cbn [emit] in Hr. rewrite catch_andThen in Hr.
  fold (posting config) in Hr.
  destruct (transformForSlack config) as [f|].
  - unfold andThen at 1 in Hr. cbn [emit net trace] in Hr. unfold ofSettled in Hr.
    destruct (f message data) as [message'|e].
    + destruct (delivery_outcome config message'
                  {| net := net w;
                     trace := (trace w ++ [posting config]) ++ [TransformForSlack message] |})
        as (attempts & final & Hres & Htrace & Hfinal & Hdone & _).
      rewrite <- Hr in Hres, Htrace. split; [exact Hres|].
      exists [posting config; TransformForSlack message], attempts, final.
      rewrite Htrace. cbn [trace]. rewrite <- !app_assoc.
      split; [reflexivity|].
      split; [right; auto | exact Hdone].
    + subst r. split; [reflexivity|].
      exists [posting config; TransformForSlack message], [], (deliveryError e).
      cbn. rewrite <- !app_assoc.
      split; [reflexivity|].
      split; [|discriminate].
      right. split; [reflexivity|]. split; [right; reflexivity|].
      right. exists e. reflexivity.
  - unfold resolve at 1 in Hr.
    destruct (delivery_outcome config message
                {| net := net w; trace := trace w ++ [posting config] |})
      as (attempts & final & Hres & Htrace & Hfinal & Hdone & _).
    rewrite <- Hr in Hres, Htrace. split; [exact Hres|].
    exists [posting config], attempts, final.
    rewrite Htrace. cbn [trace]. rewrite <- !app_assoc.
    split; [reflexivity|].
    split; [right; auto | exact Hdone].
Qed.

(** X13. [postToSlack] attempts the delivery exactly when the webhook URL
    and the channel are configured: without one of them it only writes
    'Error: Slack is not configured.' to the error console, and with both
    the first thing it does is to announce the channel on the console. *)
Theorem postToSlack_configured (config : Config.t) (data : TmplData) (message : string)
    (w : World Net) :
  (isEnabled config = false ∨ channelOf config = "" →
   deliver config data message w
   = (Fulfilled tt,
      {| net := net w;
         trace := trace w ++ [ConsoleError [VStr "Error: Slack is not configured."]] |}))
  ∧ (isEnabled config = true → channelOf config ≠ "" →
     ∃ rest, trace (deliver config data message w).2 = trace w ++ posting config :: rest).
Proof.
  split.
  - intros Hno. apply postToSlack_unconfigured. unfold configured.
    destruct Hno as [-> | ->]; [reflexivity | apply andb_false_r].
  - intros Hen Hch.
    destruct (postToSlack_shape config data message w)
      as (_ & prelude & attempts & final & Htrace & Hshape & _).
    rewrite Htrace.
    destruct Hshape as [(Hcfg & _)|(_ & [-> | ->] & _)].
    + exfalso. unfold configured in Hcfg. rewrite Hen in Hcfg.
      destruct (channelOf config); [congruence | discriminate Hcfg].
    + eexists. cbn. reflexivity.
    + eexists. cbn. reflexivity.
Qed.

(** X14. [postToSlack] never rejects: a failure of the transform hook or of
    a POST is caught and written to the console. It ends with one of three
    lines: that Slack is not configured, the error caught, or 'Done'; and
    'Done' is only written when every POST made was accepted. *)
Theorem postToSlack_never_rejects (config : Config.t) (data : TmplData)
    (message : string) (w : World Net) :
  (deliver config data message w).1 = Fulfilled tt
  ∧ ∃ events final,
      trace (deliver config data message w).2 = trace w ++ events ++ [final]
      ∧ (final = notConfigured ∨ final = done ∨ ∃ e, final = deliveryError e)
      ∧ (final = done → Forall postAccepted events).
Proof.
  destruct (postToSlack_shape config data message w)
    as (Hres & prelude & attempts & final & Htrace & Hshape & Hdone).
  split; [exact Hres|].
  exists (prelude ++ (posted config <$> attempts)), final.
  split; [rewrite Htrace, <- !app_assoc; reflexivity|]. split.
  - destruct Hshape as [(_ & _ & _ & ->)|(_ & _ & [-> | He])]; auto.
  - intros Hfinal. apply Forall_app. split.
    + destruct Hshape as [(_ & -> & _)|(_ & [-> | ->] & _)]; repeat constructor.
    + apply Forall_fmap. eapply Forall_impl; [exact (Hdone Hfinal)|].
      intros attempt Hacc. exact Hacc.
Qed.


End DeliveryCoverage.

Lemma postToSlack_configured_witness :
  postToSlack Fixtures.alwaysOk string Fixtures.noTransform Fixtures.slackWithoutURL
    "" "v1.2.0 released" Fixtures.freshWorld
  = (Fulfilled tt,
     {| net := 0;
        trace := [ConsoleError [VStr "Error: Slack is not configured."]] |})
  ∧ ∃ rest,
      trace (postToSlack Fixtures.alwaysOk string Fixtures.noTransform
               Fixtures.slackConfigured "" "v1.2.0 released" Fixtures.freshWorld).2
      = trace Fixtures.freshWorld ++ posting Fixtures.slackConfigured :: rest.
Proof.
  split.
  - apply (proj1 (postToSlack_configured Fixtures.alwaysOk string Fixtures.noTransform
                    Fixtures.slackWithoutURL "" "v1.2.0 released" Fixtures.freshWorld)).
    left. reflexivity.
  - apply (proj2 (postToSlack_configured Fixtures.alwaysOk string Fixtures.noTransform
                    Fixtures.slackConfigured "" "v1.2.0 released" Fixtures.freshWorld)).
    + reflexivity.
    + discriminate.
Defined.


(** ** [runProgram] *)

Section RunCoverage.

Context {Net : Type}.
Variable transport : Net -> string -> MessageBody -> Settled (option Response) * Net.
Variables CommitLogs Changelog ReleaseVersions TmplData : Type.
Variable cwd : string.
Variable pathResolve : string -> string.
Variable readConfigFile : string -> Completion Config.t.
Variable newJira : Config.t -> Completion unit.
Variable newSourceControl : Config.t -> Completion unit.
Variable getCommitLogs : Config.t -> string -> Range -> Settled CommitLogs.
Variable jiraGenerate : Config.t -> CommitLogs -> Value -> Settled (Changelog * ReleaseVersions).
Variable generateTemplateData : Config.t -> Changelog -> ReleaseVersions -> Settled TmplData.
Variable renderTemplate : Config.t -> TmplData -> Completion string.
Variable decode : string -> string.
Variable transformForSlack : Config.t -> option (string -> TmplData -> Settled string).

Abbreviation run :=
  (runProgram transport CommitLogs Changelog ReleaseVersions TmplData cwd pathResolve
     readConfigFile newJira newSourceControl getCommitLogs jiraGenerate
     generateTemplateData renderTemplate decode transformForSlack).

Abbreviation try :=
  (tryBlock transport CommitLogs Changelog ReleaseVersions TmplData cwd pathResolve
     readConfigFile newJira newSourceControl getCommitLogs jiraGenerate
     generateTemplateData renderTemplate decode transformForSlack).

Abbreviation generate :=
  (generateChangelog transport CommitLogs Changelog ReleaseVersions TmplData
     getCommitLogs jiraGenerate generateTemplateData renderTemplate decode
     transformForSlack).

Abbreviation gitPath cl := (gitPathOf cwd pathResolve (commandLineArgs cl)).

Lemma steps_app (l1 l2 : list Event) : steps (l1 ++ l2) = steps l1 ++ steps l2.
Proof. apply omap_app. Qed.

Lemma steps_none (l : list Event) :
  Forall (fun e => stepNumber e = None) l → steps l = [].
Proof.
  induction 1 as [|e l He _ IH]; [reflexivity|].
  unfold steps in *. cbn [omap list_omap]. rewrite He. exact IH.
Qed.

(** What [postToSlack] adds to the trace is on the console or part of the
    delivery. *)
Lemma postToSlack_events (config : Config.t) (data : TmplData) (message : string)
    (w : World Net) :
  ∃ events,
    trace (postToSlack transport TmplData transformForSlack config data message w).2
    = trace w ++ events
    ∧ Forall (fun e => isConsole e = true ∨ isDelivery e = true) events.
Proof.
  destruct (postToSlack_shape transport TmplData transformForSlack config data message w)
    as (_ & prelude & attempts & final & Htrace & Hshape & _).
  exists (prelude ++ (posted config <$> attempts) ++ [final]).
  split; [exact Htrace|].
  apply Forall_app. split; [|apply Forall_app; split].
  - destruct Hshape as [(_ & -> & _)|(_ & [-> | ->] & _)].
    + constructor.
    + constructor; [left; reflexivity | constructor].
    + constructor; [left; reflexivity|].
      constructor; [right; reflexivity | constructor].
  - apply Forall_fmap, Forall_true. intros attempt. right. reflexivity.
  - constructor; [|constructor].
    destruct Hshape as [(_ & _ & _ & ->)|(_ & _ & [-> | [e ->]])]; left; reflexivity.
Qed.

(** The steps after the release step: each event is one that these steps
    can make, and the steps of the pipeline come in their order, none
    without those before it. *)
Lemma generateChangelog_events (config : Config.t) (path : string) (program : Program)
    (w : World Net) :
  ∃ events,
    trace (generate config path program w).2 = trace w ++ events
    ∧ Forall (stepEvent path (prop program "release") (truthy (prop program "slack")))
        events
    ∧ ∃ k, k ≤ 4 ∧ steps events = seq 0 k.
Proof.
  unfold generateChangelog, andThen, emit, ofCompletion, ofSettled.
  destruct (getRangeObject_cases config program) as [[_ ->]|[Hne ->]];
    cbn [resolve reject].
  { exists []. rewrite app_nil_r. split; [reflexivity|].
    split; [constructor | exists 0; split; [lia | reflexivity]]. }
  destruct (getCommitLogs config path (rangeOf config program)) as [logs|e];
    cbn [fst snd trace net].
  2:{ exists [GetCommitLogs path (rangeOf config program)].
      split; [reflexivity|]. split; [repeat constructor; assumption|].
      exists 1. split; [lia | reflexivity]. }
  destruct (jiraGenerate config logs (prop program "release")) as [[changelog versions]|e];
    cbn [fst snd trace net].
  2:{ exists [GetCommitLogs path (rangeOf config program);
              JiraGenerate (prop program "release")].
      rewrite <- !app_assoc.
      split; [reflexivity|]. split; [repeat constructor; assumption|].
      exists 2. split; [lia | reflexivity]. }
  destruct (generateTemplateData config changelog versions) as [data|e];
    cbn [fst snd trace net].
  2:{ exists [GetCommitLogs path (rangeOf config program);
              JiraGenerate (prop program "release"); GenerateTemplateData].
      rewrite <- !app_assoc.
      split; [reflexivity|]. split; [repeat constructor; assumption|].
      exists 3. split; [lia | reflexivity]. }
  destruct (renderTemplate config data) as [message|e];
    cbn [fst snd trace net resolve reject].
  2:{ exists [GetCommitLogs path (rangeOf config program);
              JiraGenerate (prop program "release"); GenerateTemplateData;
              RenderTemplate].
      rewrite <- !app_assoc.
      split; [reflexivity|]. split; [repeat constructor; assumption|].
      exists 4. split; [lia | reflexivity]. }
  destruct (truthy (prop program "slack")) eqn:Hslack.
  - match goal with
    | |- context [postToSlack _ _ _ config data message ?w0] =>
        destruct (postToSlack_events config data message w0) as (events & Htrace & Hall)
    end.
    exists ([GetCommitLogs path (rangeOf config program);
             JiraGenerate (prop program "release"); GenerateTemplateData;
             RenderTemplate; ConsoleLog [VStr (decode message)]] ++ events).
    rewrite Htrace. cbn [trace]. rewrite <- !app_assoc.
    split; [reflexivity|]. split.
    + apply Forall_app. split; [repeat constructor; assumption|].
      eapply Forall_impl; [exact Hall|].
      intros e [He|He]; destruct e; try discriminate He; reflexivity.
    + exists 4. split; [lia|]. rewrite steps_app. rewrite (steps_none events).
      * reflexivity.
      * eapply Forall_impl; [exact Hall|].
        intros e [He|He]; destruct e; try discriminate He; reflexivity.
  - exists [GetCommitLogs path (rangeOf config program);
            JiraGenerate (prop program "release"); GenerateTemplateData;
            RenderTemplate; ConsoleLog [VStr (decode message)]].
    cbn [resolve fst snd trace]. rewrite <- !app_assoc.
    split; [reflexivity|]. split; [repeat constructor; assumption|].
    exists 4. split; [lia | reflexivity].
Qed.

Lemma commandLineArgs_slack (cl : CommandLine) :
  prop (commandLineArgs cl) "slack" = if opt_slack cl then VTrue else VUndefined.
Proof. program_prop. Qed.

Lemma prop_setProp_ne (program : Program) (name other : string) (v : Value) :
  name ≠ other → prop (setProp program name v) other = prop program other.
Proof. intros Hne. unfold prop, setProp. cbn. now rewrite lookup_insert_ne. Qed.

Lemma prop_setProp_eq (program : Program) (name : string) (v : Value) :
  prop (setProp program name v) name = v.
Proof. unfold prop, setProp. cbn. now rewrite lookup_insert_eq. Qed.

Lemma stepEvent_runEvent (cl : CommandLine) (program : Program) (path : string)
    (e : Event) :
  agrees cl program →
  stepEvent path (prop program "release") (truthy (prop program "slack")) e →
  runEvent path cl e.
Proof.
  intros [Hslack Hrelease] He.
  destruct e as [args|args|p| |p range|r| | |m|url body result];
    cbn [stepEvent runEvent] in *; try exact He; try contradiction.
  - rewrite He. destruct (opt_release cl) as [[name|]|]; auto.
  - congruence.
  - congruence.
Qed.

(** The release step: what it adds to the trace, and the program object it
    hands on. *)
Lemma releaseVersionName_events (config : Config.t) (cl : CommandLine) (path : string)
    (w : World Net) :
  ∃ events,
    trace (releaseVersionName config (commandLineArgs cl) w).2 = trace w ++ events
    ∧ Forall (runEvent path cl) events
    ∧ steps events = []
    ∧ ∀ program,
        (releaseVersionName config (commandLineArgs cl) w).1 = Fulfilled (Some program) →
        agrees cl program.
Proof.
  unfold releaseVersionName.
  pose proof (commandLineArgs_release cl) as Hrelease.
  pose proof (commandLineArgs_slack cl) as Hslack.
  assert (Hsame : opt_release cl ≠ Some None → agrees cl (commandLineArgs cl)).
  { intros Hne. split.
    - rewrite Hslack. destruct (opt_slack cl); reflexivity.
    - rewrite Hrelease. destruct (opt_release cl) as [[name|]|]; [reflexivity | | reflexivity].
      congruence. }
  destruct (opt_release cl) as [[name|]|] eqn:Hopt; rewrite Hrelease; cbn [from_option].
  - exists []. cbn. rewrite app_nil_r.
    split; [reflexivity|]. split; [constructor|]. split; [reflexivity|].
    intros program [= <-]. apply Hsame. discriminate.
  - destruct (Config.jira config) as [j|].
    + destruct (Config.generateReleaseVersionName j) as [[name|e]|].
      * exists [GenerateReleaseVersionName]. cbn.
        split; [reflexivity|]. split; [constructor; [exact Hopt | constructor]|].
        split; [reflexivity|].
        intros program [= <-]. split; [|rewrite Hopt; exact I].
        rewrite prop_setProp_ne by discriminate.
        rewrite Hslack. destruct (opt_slack cl); reflexivity.
      * exists [GenerateReleaseVersionName]. cbn.
        split; [reflexivity|]. split; [constructor; [exact Hopt | constructor]|].
        split; [reflexivity | discriminate].
      * exists [ConsoleLog [VStr guidance]]. cbn.
        split; [reflexivity|]. split; [repeat constructor|].
        split; [reflexivity | discriminate].
    + exists []. cbn. rewrite app_nil_r.
      split; [reflexivity|]. split; [constructor|]. split; [reflexivity | discriminate].
  - exists []. cbn. rewrite app_nil_r.
    split; [reflexivity|]. split; [constructor|]. split; [reflexivity|].
    intros program [= <-]. apply Hsame. discriminate.
Qed.

(** The [catch] block writes to the console only. *)
Lemma catchBlock_events (e : Value) (w : World Net) :
  ∃ events,
    trace (catchBlock e w).2 = trace w ++ events
    ∧ Forall (fun e => isConsole e = true) events.
Proof.
  unfold catchBlock, andThen, ofCompletion, emit.
  destruct (stackOf e) as [stack|e']; cbn.
  - exists [ConsoleError [VStr "Error: "; stack]; ConsoleLog [messageOf e]].
    rewrite <- app_assoc. split; [reflexivity | repeat constructor].
  - exists []. rewrite app_nil_r. split; [reflexivity | constructor].
Qed.

(** The [try] block: every event is one that the run can make for its
    command line, and the steps come in their order. *)
Lemma tryBlock_events (cl : CommandLine) (w : World Net) :
  ∃ events,
    trace (try cl w).2 = trace w ++ events
    ∧ Forall (runEvent (gitPath cl) cl) events
    ∧ ∃ k, k ≤ 4 ∧ steps events = seq 0 k.
Proof.
  unfold tryBlock, andThen, emit, ofCompletion.
  set (path := gitPath cl).
  set (w0 := {| net := net w; trace := trace w ++ [ReadConfigFile path] |}).
  assert (Hstop : ∃ events,
             trace w0 = trace w ++ events
             ∧ Forall (runEvent path cl) events ∧ ∃ k, k ≤ 4 ∧ steps events = seq 0 k).
  { exists [ReadConfigFile path]. split; [reflexivity|].
    split; [repeat constructor | exists 0; split; [lia | reflexivity]]. }
  destruct (readConfigFile path) as [config|e]; cbn [resolve reject]; [|exact Hstop].
  destruct (newJira config) as [[]|e]; cbn [resolve reject]; [|exact Hstop].
  destruct (newSourceControl config) as [[]|e]; cbn [resolve reject]; [|exact Hstop].
  destruct (releaseVersionName_events config cl path w0)
    as (released & Htrace & Hall & Hsteps & Hagrees).
  destruct (releaseVersionName config (commandLineArgs cl) w0) as [[[program|]|e] w1];
    cbn [fst snd] in Htrace, Hagrees.
  - specialize (Hagrees program eq_refl).
    destruct (generateChangelog_events config path program w1)
      as (events & Hgen & Hevents & k & Hle & Hk).
    exists (ReadConfigFile path :: released ++ events).
    rewrite Hgen, Htrace. subst w0. cbn [trace]. rewrite <- !app_assoc.
    split; [reflexivity|]. split.
    + constructor; [reflexivity|]. apply Forall_app. split; [exact Hall|].
      eapply Forall_impl; [exact Hevents|].
      intros e. apply stepEvent_runEvent, Hagrees.
    + exists k. split; [exact Hle|].
      change (ReadConfigFile path :: released ++ events)
        with ([ReadConfigFile path] ++ released ++ events).
      rewrite !steps_app, Hsteps, Hk. reflexivity.
  - exists (ReadConfigFile path :: released).
    cbn [resolve snd]. rewrite Htrace. subst w0. cbn [trace]. rewrite <- !app_assoc.
    split; [reflexivity|]. split; [constructor; [reflexivity | exact Hall]|].
    exists 0. split; [lia|]. change (ReadConfigFile path :: released)
      with ([ReadConfigFile path] ++ released).
    rewrite steps_app, Hsteps. reflexivity.
  - exists (ReadConfigFile path :: released).
    cbn [snd]. rewrite Htrace. subst w0. cbn [trace]. rewrite <- !app_assoc.
    split; [reflexivity|]. split; [constructor; [reflexivity | exact Hall]|].
    exists 0. split; [lia|]. change (ReadConfigFile path :: released)
      with ([ReadConfigFile path] ++ released).
    rewrite steps_app, Hsteps. reflexivity.
Qed.

(** A run: the same, with what the [catch] block writes. *)
Lemma run_events (cl : CommandLine) (w : World Net) :
  ∃ events,
    trace (run cl w).2 = trace w ++ events
    ∧ Forall (runEvent (gitPath cl) cl) events
    ∧ ∃ k, k ≤ 4 ∧ steps events = seq 0 k.
Proof.
  destruct (tryBlock_events cl w) as (events & Htrace & Hall & k & Hle & Hk).
  unfold runProgram, catch.
  destruct (try cl w) as [[[]|e] w1]; cbn [fst snd] in Htrace.
  - exists events. split; [exact Htrace|]. split; [exact Hall | eauto].
  - destruct (catchBlock_events e w1) as (report & Hreport & Hconsole).
    exists (events ++ report). rewrite Hreport, Htrace, <- app_assoc.
    split; [reflexivity|]. split.
    + apply Forall_app. split; [exact Hall|].
      eapply Forall_impl; [exact Hconsole|].
      intros ev Hev. destruct ev; try discriminate Hev; exact I.
    + exists k. split; [exact Hle|].
      rewrite steps_app, Hk, (steps_none report), app_nil_r; [reflexivity|].
      eapply Forall_impl; [exact Hconsole|].
      intros ev Hev. destruct ev; try discriminate Hev; reflexivity.
Qed.

Lemma args_commandLineArgs (cl : CommandLine) : args (commandLineArgs cl) = positional cl.
Proof.
  unfold commandLineArgs, programOption, setProp.
  destruct (opt_config cl), (opt_range cl), (opt_date cl), (opt_slack cl),
    (opt_release cl) as [[?|]|]; reflexivity.
Qed.

(** X16. Without [--slack] a run delivers nothing: it calls no transform
    hook and makes no POST, whatever the configuration and whatever the
    collaborators answer. *)
Theorem run_delivers_only_with_slack (cl : CommandLine) (w : World Net) :
  opt_slack cl = false →
  ∃ events,
    trace (run cl w).2 = trace w ++ events
    ∧ Forall (fun e => isDelivery e = false) events.
Proof.
  intros Hslack.
  destruct (run_events cl w) as (events & Htrace & Hall & _).
  exists events. split; [exact Htrace|].
  eapply Forall_impl; [exact Hall|].
  intros e He. destruct e; try reflexivity; cbn in He; congruence.
Qed.

(** X17. The release name given on the command line is the one passed to
    the issue tracker, and the generator of the configuration is not called
    then; without [--release] the issue tracker gets an undefined name. The
    generator is only ever called for a [--release] without name. *)
Theorem run_release_name (cl : CommandLine) (w : World Net) :
  ∃ events,
    trace (run cl w).2 = trace w ++ events
    ∧ (GenerateReleaseVersionName ∈ events → opt_release cl = Some None)
    ∧ (∀ name r, opt_release cl = Some (Some name) → JiraGenerate r ∈ events →
                 r = VStr name)
    ∧ (∀ r, opt_release cl = None → JiraGenerate r ∈ events → r = VUndefined).
Proof.
  destruct (run_events cl w) as (events & Htrace & Hall & _).
  exists events. split; [exact Htrace|].
  rewrite Forall_forall in Hall. split; [|split].
  - intros Hin. exact (Hall _ Hin).
  - intros name r Hrelease Hin. specialize (Hall _ Hin). cbn in Hall.
    rewrite Hrelease in Hall. exact Hall.
  - intros r Hrelease Hin. specialize (Hall _ Hin). cbn in Hall.
    rewrite Hrelease in Hall. exact Hall.
Qed.

(** X18. The configuration is read for, and the commit logs are fetched
    from, one and the same path: the first positional argument, or the
    current directory when there is none, made absolute. The commit logs are
    never fetched for a range object without property. *)
Theorem run_git_path (cl : CommandLine) (w : World Net) :
  gitPath cl = pathResolve (match positional cl with a :: _ => a | [] => cwd end)
  ∧ ∃ events,
      trace (run cl w).2 = trace w ++ events
      ∧ (∀ p, ReadConfigFile p ∈ events → p = gitPath cl)
      ∧ (∀ p range, GetCommitLogs p range ∈ events → p = gitPath cl ∧ range ≠ ∅).
Proof.
  split.
  - unfold gitPathOf. rewrite args_commandLineArgs. reflexivity.
  - destruct (run_events cl w) as (events & Htrace & Hall & _).
    exists events. split; [exact Htrace|].
    rewrite Forall_forall in Hall. split.
    + intros p Hin. exact (Hall _ Hin).
    + intros p range Hin. exact (Hall _ Hin).
Qed.

(** X19. The steps of the pipeline run in their order and never out of
    it: in every run the steps made are the commit-log fetch, the issue
    tracker, the template data and the rendering, up to some point; no step
    is made twice, and none without all those before it. *)
Theorem run_pipeline_order (cl : CommandLine) (w : World Net) :
  ∃ events k,
    trace (run cl w).2 = trace w ++ events
    ∧ k ≤ 4
    ∧ steps events = seq 0 k.
Proof.
  destruct (run_events cl w) as (events & Htrace & _ & k & Hle & Hk).
  exists events, k. auto.
Qed.

(** The release step lets the program object through unless [--release]
    was given without name. *)
Lemma releaseVersionName_passes (config : Config.t) (cl : CommandLine) (w : World Net) :
  opt_release cl ≠ Some None →
  releaseVersionName config (commandLineArgs cl) w
  = (Fulfilled (Some (commandLineArgs cl)), w).
Proof.
  intros Hrelease. unfold releaseVersionName.
  rewrite commandLineArgs_release.
  destruct (opt_release cl) as [[name|]|]; [reflexivity | congruence | reflexivity].
Qed.

Lemma getRangeObject_setProp_release (config : Config.t) (program : Program) (v : Value) :
  getRangeObject config (setProp program "release" v) = getRangeObject config program.
Proof.
  unfold getRangeObject, rangeOf.
  rewrite !prop_setProp_ne by discriminate. reflexivity.
Qed.

(** The steps after the release step when each of them succeeds and Slack
    is not asked for. *)
Lemma generateChangelog_pipeline (config : Config.t) (path : string) (program : Program)
    (w : World Net) range logs changelog versions data message :
  getRangeObject config program = Normal range →
  getCommitLogs config path range = Fulfilled logs →
  jiraGenerate config logs (prop program "release") = Fulfilled (changelog, versions) →
  generateTemplateData config changelog versions = Fulfilled data →
  renderTemplate config data = Normal message →
  truthy (prop program "slack") = false →
  generate config path program w
  = (Fulfilled tt,
     {| net := net w;
        trace := trace w ++ [GetCommitLogs path range; JiraGenerate (prop program "release");
                             GenerateTemplateData; RenderTemplate;
                             ConsoleLog [VStr (decode message)]] |}).
Proof.
  intros Hrange Hlogs Hjira Hdata Hrender Hslack.
  unfold generateChangelog, andThen, emit, ofCompletion, ofSettled.
  rewrite Hrange. cbn [resolve net trace]. rewrite Hlogs. cbn [net trace].
  rewrite Hjira. cbn [net trace fst snd]. rewrite Hdata. cbn [net trace].
  rewrite Hrender. cbn [resolve net trace]. rewrite Hslack.
  unfold resolve. rewrite <- !app_assoc. reflexivity.
Qed.


(** The [try] block up to the release step, when the configuration is read
    and the clients are built. *)
Lemma tryBlock_start (cl : CommandLine) (config : Config.t) (w : World Net) :
  readConfigFile (gitPath cl) = Normal config →
  newJira config = Normal tt →
  newSourceControl config = Normal tt →
  try cl w
  = (next <- releaseVersionName config (commandLineArgs cl) ;;
     match next with
     | None => resolve tt
     | Some program => generate config (gitPath cl) program
     end)%promise
      {| net := net w; trace := trace w ++ [ReadConfigFile (gitPath cl)] |}.
Proof.
  intros Hread Hjira Hsource.
  unfold tryBlock. unfold andThen at 1. cbn [emit].
  unfold andThen at 1. unfold ofCompletion at 1. rewrite Hread. cbn [resolve].
  unfold andThen at 1. unfold ofCompletion at 1. rewrite Hjira. cbn [resolve].
  unfold andThen at 1. unfold ofCompletion at 1. rewrite Hsource. cbn [resolve].
  reflexivity.
Qed.


(** X21. A run in which every step succeeds, without [--slack] and without
    a release name to generate: after the configuration is read the commit
    logs are fetched for the range, the issue tracker is called with the
    release of the command line, the template data is built and rendered,
    and the decoded message is printed; the promise is fulfilled. *)
Theorem run_pipeline (cl : CommandLine) (config : Config.t) (w : World Net)
    range logs changelog versions data message :
  readConfigFile (gitPath cl) = Normal config →
  newJira config = Normal tt →
  newSourceControl config = Normal tt →
  opt_release cl ≠ Some None →
  opt_slack cl = false →
  getRangeObject config (commandLineArgs cl) = Normal range →
  getCommitLogs config (gitPath cl) range = Fulfilled logs →
  jiraGenerate config logs (from_option (from_option VStr VTrue) VUndefined (opt_release cl))
  = Fulfilled (changelog, versions) →
  generateTemplateData config changelog versions = Fulfilled data →
  renderTemplate config data = Normal message →
  run cl w
  = (Fulfilled tt,
     {| net := net w;
        trace := trace w
                 ++ [ReadConfigFile (gitPath cl);
                     GetCommitLogs (gitPath cl) range;
                     JiraGenerate (from_option (from_option VStr VTrue) VUndefined
                                     (opt_release cl));
                     GenerateTemplateData; RenderTemplate;
                     ConsoleLog [VStr (decode message)]] |}).
Proof.
  intros Hread Hjira Hsource Hrelease Hslack Hrange Hlogs Hgen Hdata Hrender.
  unfold runProgram, catch.
  rewrite (tryBlock_start cl config w Hread Hjira Hsource).
  unfold andThen at 1. rewrite (releaseVersionName_passes config cl _ Hrelease).
  rewrite <- commandLineArgs_release in Hgen |- *.
  rewrite (generateChangelog_pipeline config (gitPath cl) (commandLineArgs cl) _
             range logs changelog versions data message Hrange Hlogs Hgen Hdata Hrender).
  - cbn [net trace]. rewrite <- app_assoc. reflexivity.
  - rewrite commandLineArgs_slack, Hslack. reflexivity.
Qed.

(** X22. With [--release] without name and a generator in the
    configuration, the generator is called once the configuration is read,
    before any other step, and the name it resolves with is the one passed
    to the issue tracker. *)
Theorem run_generated_release (cl : CommandLine) (config : Config.t)
    (j : Config.JiraConfig) (name : Value) (w : World Net)
    range logs changelog versions data message :
  readConfigFile (gitPath cl) = Normal config →
  newJira config = Normal tt →
  newSourceControl config = Normal tt →
  opt_release cl = Some None →
  Config.jira config = Some j →
  Config.generateReleaseVersionName j = Some (Fulfilled name) →
  opt_slack cl = false →
  getRangeObject config (commandLineArgs cl) = Normal range →
  getCommitLogs config (gitPath cl) range = Fulfilled logs →
  jiraGenerate config logs name = Fulfilled (changelog, versions) →
  generateTemplateData config changelog versions = Fulfilled data →
  renderTemplate config data = Normal message →
  run cl w
  = (Fulfilled tt,
     {| net := net w;
        trace := trace w
                 ++ [ReadConfigFile (gitPath cl); GenerateReleaseVersionName;
                     GetCommitLogs (gitPath cl) range; JiraGenerate name;
                     GenerateTemplateData; RenderTemplate;
                     ConsoleLog [VStr (decode message)]] |}).
Proof.
  intros Hread Hjira Hsource Hrelease Hblock Hgenerator Hslack Hrange Hlogs Hgen Hdata
    Hrender.
  unfold runProgram, catch.
  rewrite (tryBlock_start cl config w Hread Hjira Hsource).
  unfold andThen at 1. unfold releaseVersionName.
  rewrite commandLineArgs_release, Hrelease. cbn [from_option].
  rewrite Hblock, Hgenerator.
  unfold andThen at 1. cbn [emit]. unfold andThen at 1. unfold ofSettled at 1.
  cbn [resolve].
  rewrite (generateChangelog_pipeline config (gitPath cl)
             (setProp (commandLineArgs cl) "release" name) _
             range logs changelog versions data message).
  - rewrite prop_setProp_eq. cbn [net trace]. rewrite <- !app_assoc. reflexivity.
  - rewrite getRangeObject_setProp_release. exact Hrange.
  - exact Hlogs.
  - rewrite prop_setProp_eq. exact Hgen.
  - exact Hdata.
  - exact Hrender.
  - rewrite prop_setProp_ne by discriminate.
    rewrite commandLineArgs_slack, Hslack. reflexivity.
Qed.




End RunCoverage.

Lemma run_delivers_only_with_slack_witness :
  ∃ events,
    trace (runProgram Fixtures.alwaysOk (list string) string (list string) string
             "/work/repo" id (Fixtures.loads Fixtures.slackConfigured)
             Fixtures.constructed Fixtures.constructed Fixtures.noCommits
             Fixtures.emptyChangelog Fixtures.emptyData Fixtures.rendersData id
             Fixtures.noTransform (Fixtures.withRange "abc...def") Fixtures.freshWorld).2
    = trace Fixtures.freshWorld ++ events
    ∧ Forall (fun e => isDelivery e = false) events.
Proof.
  apply (run_delivers_only_with_slack Fixtures.alwaysOk (list string) string
           (list string) string "/work/repo" id (Fixtures.loads Fixtures.slackConfigured)
           Fixtures.constructed Fixtures.constructed Fixtures.noCommits
           Fixtures.emptyChangelog Fixtures.emptyData Fixtures.rendersData id
           Fixtures.noTransform (Fixtures.withRange "abc...def") Fixtures.freshWorld).
  reflexivity.
Defined.


(** A run with [--range abc...def] on a repository without commits. *)
Lemma run_pipeline_witness :
  runProgram Fixtures.alwaysOk (list string) string (list string) string
    "/work/repo" id (Fixtures.loads Fixtures.jiraWithoutGenerator)
    Fixtures.constructed Fixtures.constructed Fixtures.noCommits
    Fixtures.emptyChangelog Fixtures.emptyData Fixtures.rendersData id
    Fixtures.noTransform (Fixtures.withRange "abc...def") Fixtures.freshWorld
  = (Fulfilled tt,
     {| net := 0;
        trace := [ReadConfigFile "/work/repo";
                  GetCommitLogs "/work/repo" {[ "from" := VStr "abc"; "to" := VStr "def" ]};
                  JiraGenerate VUndefined; GenerateTemplateData; RenderTemplate;
                  ConsoleLog [VStr ""]] |}).
Proof.
  apply (run_pipeline Fixtures.alwaysOk (list string) string (list string) string
           "/work/repo" id (Fixtures.loads Fixtures.jiraWithoutGenerator)
           Fixtures.constructed Fixtures.constructed Fixtures.noCommits
           Fixtures.emptyChangelog Fixtures.emptyData Fixtures.rendersData id
           Fixtures.noTransform
           (Fixtures.withRange "abc...def") Fixtures.jiraWithoutGenerator Fixtures.freshWorld
           {[ "from" := VStr "abc"; "to" := VStr "def" ]} [] EmptyString [] EmptyString EmptyString);
    solve [reflexivity | discriminate | vm_compute; reflexivity].
Defined.

(** A run with [--release] alone, a generator that answers 'v2.0.0' and a
    default range. *)
Lemma run_generated_release_witness :
  runProgram Fixtures.alwaysOk (list string) string (list string) string
    "/work/repo" id (Fixtures.loads Fixtures.jiraWithGenerator)
    Fixtures.constructed Fixtures.constructed Fixtures.noCommits
    Fixtures.emptyChangelog Fixtures.emptyData Fixtures.rendersData id
    Fixtures.noTransform Fixtures.bareRelease Fixtures.freshWorld
  = (Fulfilled tt,
     {| net := 0;
        trace := [ReadConfigFile "/work/repo"; GenerateReleaseVersionName;
                  GetCommitLogs "/work/repo"
                    {[ "from" := VStr "origin/prod"; "to" := VStr "origin/master" ]};
                  JiraGenerate (VStr "v2.0.0"); GenerateTemplateData; RenderTemplate;
                  ConsoleLog [VStr ""]] |}).
Proof.
  apply (run_generated_release Fixtures.alwaysOk (list string) string (list string) string
           "/work/repo" id (Fixtures.loads Fixtures.jiraWithGenerator)
           Fixtures.constructed Fixtures.constructed Fixtures.noCommits
           Fixtures.emptyChangelog Fixtures.emptyData Fixtures.rendersData id
           Fixtures.noTransform
           Fixtures.bareRelease Fixtures.jiraWithGenerator
           {| Config.generateReleaseVersionName := Some (Fulfilled (VStr "v2.0.0")) |}
           (VStr "v2.0.0") Fixtures.freshWorld
           {[ "from" := VStr "origin/prod"; "to" := VStr "origin/master" ]}
           [] EmptyString [] EmptyString EmptyString);
    solve [reflexivity | vm_compute; reflexivity].
Defined.




End CliCoverage.
